(** * Orderly starter: the per-shop settings API of [server.js]

    A shallow embedding of the Express application in [src/server.js]:
    the in-memory [settingsByShop] map, [defaultSettings], the
    Content-Security-Policy middleware, the two [/api/settings] handlers
    and the script of the settings page, followed by their properties.

    Two levels. [app] is a request behind the middleware: its body is
    parsed and its header set, and the route's handler replies. [server]
    is a request through the whole stack: it adds the body
    [express.json()] refuses, the header value on which [res.setHeader]
    throws and the request without a route, all three answered by
    Express' final handler with the store left as it is.

    Conventions.
    - A JavaScript string is a [string]; one element stands for one code
      unit, which is what [.length], [.slice] and [.endsWith] count.
      Strings with a code unit above [0xff] are outside the model.
    - A JavaScript number is an IEEE 754 double, [spec_float].
    - [undefined] is [None] wherever a property read may be absent.
    - The [Map] keyed by strings is a [gmap string Settings]. *)

From Stdlib Require Import ZArith NArith Ascii SpecFloat.
From stdpp Require Import gmap strings list fin_maps.

Local Open Scope string_scope.

(** ** JavaScript values and the built-ins the handlers call *)

Module JS.

(** What [express.json()] hands to a handler in [req.body]: the result
    of [JSON.parse]. An object is the list of its own properties. *)
#[warnings="-register-all"]
Inductive json : Type :=
| JNull
| JBool (b : bool)
| JNum (x : spec_float)
| JStr (s : string)
| JArr (items : list json)
| JObj (props : list (string * json)).

(** [Boolean(v)] on a number: zero (of either sign) and NaN are falsy. *)
Definition number_truthy (x : spec_float) : bool :=
  match x with
  | S754_zero _ | S754_nan => false
  | S754_infinity _ | S754_finite _ _ _ => true
  end.

(** [Boolean(v)] for a value that is present. *)
Definition truthy (v : json) : bool :=
  match v with
  | JNull => false
  | JBool b => b
  | JNum x => number_truthy x
  | JStr s => negb (String.eqb s "")
  | JArr _ | JObj _ => true
  end.

(** [Boolean(v)] where [v] may be [undefined]. *)
Definition Boolean (v : option json) : bool :=
  match v with
  | None => false
  | Some w => truthy w
  end.

(** Own property [k] of an object; a later occurrence of a key wins,
    as in [JSON.parse]. *)
Fixpoint own_prop (props : list (string * json)) (k : string) : option json :=
  match props with
  | [] => None
  | (k', v) :: rest =>
      match own_prop rest k with
      | Some w => Some w
      | None => if String.eqb k' k then Some v else None
      end
  end.

(** [v.k] for one of the setting names [k]: none of them is a property
    of an array, of a primitive wrapper or of [Object.prototype]. The
    handlers never read a property of [null] (see [body_of]). *)
Definition get_prop (v : json) (k : string) : option json :=
  match v with
  | JObj props => own_prop props k
  | _ => None
  end.

(** The index clamping of [String.prototype.slice]: a negative index
    counts from the end, and the result stays inside [0, len]. *)
Definition clamp_index (len i : Z) : Z :=
  if (i <? 0)%Z then Z.max (len + i) 0 else Z.min i len.

(** [s.slice(start, stop)] *)
Definition slice (s : string) (start stop : Z) : string :=
  let len := Z.of_nat (String.length s) in
  let from := clamp_index len start in
  let to := clamp_index len stop in
  if (to <=? from)%Z then ""
  else String.substring (Z.to_nat from) (Z.to_nat (to - from)) s.

(** [s.endsWith(suffix)] *)
Definition endsWith (s suffix : string) : bool :=
  let n := String.length s in
  let k := String.length suffix in
  if (k <=? n)%nat then String.eqb (String.substring (n - k) k s) suffix
  else false.

(** [parts.join(sep)] *)
Fixpoint join (sep : string) (parts : list string) : string :=
  match parts with
  | [] => ""
  | [p] => p
  | p :: rest => p +:+ sep +:+ join sep rest
  end.

End JS.

Import JS.

(** ** The settings record and the store *)

(** The object built by [defaultSettings] and rebuilt by the POST handler. *)
Record Settings : Type := mkSettings {
  shop : string;
  brandName : string;
  accent : string;
  notifyDelay : bool;
  notifyOutForDelivery : bool;
  notifyDelivered : bool
}.

(** [settingsByShop]: a [Map] from shop to its record. *)
Abbreviation settingsByShop := (gmap string Settings) (only parsing).

Definition defaultSettings (shop : string) : Settings :=
  {| shop := shop;
     brandName := "Orderly";
     accent := "#16a34a";
     notifyDelay := true;
     notifyOutForDelivery := true;
     notifyDelivered := true |}.

(** The record as [res.json] serialises it. *)
Definition settings_json (r : Settings) : json :=
  JObj [ ("shop", JStr (shop r));
         ("brandName", JStr (brandName r));
         ("accent", JStr (accent r));
         ("notifyDelay", JBool (notifyDelay r));
         ("notifyOutForDelivery", JBool (notifyOutForDelivery r));
         ("notifyDelivered", JBool (notifyDelivered r)) ].

(** ** Requests and responses *)

(** A value of [req.query] as Express' query parser produces it:
    a string, an array ([?shop=a&shop=b]) or an object ([?shop[x]=a]). *)
#[warnings="-register-all"]
Inductive qvalue : Type :=
| QString (s : string)
| QArray (items : list qvalue)
| QObject (props : list (string * qvalue)).

(** The routes the application registers. [src/server.js] stops after
    GET [/]; the same file in full, [src/unnamed/part_001], goes on to
    register [/auth/callback] and [/health]. *)
Inductive route : Type :=
| GET_root
| GET_api_settings
| POST_api_settings
| GET_auth_callback
| GET_health.

Record request : Type := mkRequest {
  target : route;
  query_shop : option qvalue;   (* req.query.shop, None = undefined *)
  body : option json            (* req.body, None = undefined *)
}.

Inductive payload : Type :=
| Json (v : json)
| Text (s : string)
| SettingsPage                  (* the fixed HTML document of GET / *)
| ErrorPage.                    (* the HTML page of Express' final handler *)

Record response : Type := mkResponse {
  status : nat;
  headers : list (string * string);
  sent : payload
}.

(** [!shop] and [typeof shop !== "string"], the two halves of the guard
    of both settings handlers. *)
Definition not_shop (shop : option qvalue) : bool :=
  match shop with
  | None => true
  | Some (QString s) => String.eqb s ""
  | Some (QArray _) | Some (QObject _) => false
  end.

Definition not_a_string (shop : option qvalue) : bool :=
  match shop with
  | Some (QString _) => false
  | _ => true
  end.

(** The shop a settings handler works on: [None] when the guard
    [!shop || typeof shop !== "string"] sends the 400 reply. *)
Definition shop_param (shop : option qvalue) : option string :=
  if not_shop shop || not_a_string shop then None
  else match shop with
       | Some (QString s) => Some s
       | _ => None
       end.

(** [{ ok: false, error: "Missing ?shop=" }] *)
Definition missing_shop : json :=
  JObj [ ("ok", JBool false); ("error", JStr "Missing ?shop=") ].

(** [{ ok: true, settings: r }] *)
Definition ok_settings (r : Settings) : json :=
  JObj [ ("ok", JBool true); ("settings", settings_json r) ].

(** [settingsByShop.get(shop) || defaultSettings(shop)]: a stored record is
    an object, hence truthy, so the default is taken only for a new shop. *)
Definition get_or_default (st : settingsByShop) (s : string) : Settings :=
  match st !! s with
  | Some r => r
  | None => defaultSettings s
  end.

(** [req.body || {}] *)
Definition body_of (b : option json) : json :=
  match b with
  | Some v => if truthy v then v else JObj []
  | None => JObj []
  end.

(** The object literal [next] of the POST handler. *)
Definition merge (prev : Settings) (b : json) : Settings :=
  {| shop := shop prev;
     brandName :=
       match get_prop b "brandName" with
       | Some (JStr s) => slice s 0 40
       | _ => brandName prev
       end;
     accent :=
       match get_prop b "accent" with
       | Some (JStr s) => s
       | _ => accent prev
       end;
     notifyDelay := Boolean (get_prop b "notifyDelay");
     notifyOutForDelivery := Boolean (get_prop b "notifyOutForDelivery");
     notifyDelivered := Boolean (get_prop b "notifyDelivered") |}.

(** A handler maps the store to the new store, a status and a payload. *)
Definition handler : Type := settingsByShop -> settingsByShop * (nat * payload).

(** [app.get("/api/settings", ...)] *)
Definition get_api_settings (req : request) : handler := fun st =>
  match shop_param (query_shop req) with
  | None => (st, (400, Json missing_shop))
  | Some s =>
      let current := get_or_default st s in
      (<[s := current]> st, (200, Json (ok_settings current)))
  end.

(** [app.post("/api/settings", ...)] *)
Definition post_api_settings (req : request) : handler := fun st =>
  match shop_param (query_shop req) with
  | None => (st, (400, Json missing_shop))
  | Some s =>
      let prev := get_or_default st s in
      let next := merge prev (body_of (body req)) in
      (<[s := next]> st, (200, Json (ok_settings next)))
  end.

(** The list built by the middleware before it sets the header. *)
Definition frameAncestors (shop : option qvalue) : list string :=
  [ "https://admin.shopify.com"; "https://*.myshopify.com" ] ++
  match shop with
  | Some (QString s) =>
      if endsWith s ".myshopify.com" then [ "https://" +:+ s ] else []
  | _ => []
  end.

(** The value given to [res.setHeader("Content-Security-Policy", ...)]. *)
Definition contentSecurityPolicy (shop : option qvalue) : string :=
  join "; "
    [ "default-src 'self' https: data: blob:";
      "script-src 'self' 'unsafe-inline' https://cdn.shopify.com https://unpkg.com";
      "style-src 'self' 'unsafe-inline' https://cdn.shopify.com https://unpkg.com";
      "img-src 'self' https: data: blob:";
      "connect-src 'self' https:";
      "frame-ancestors " +:+ join " " (frameAncestors shop) ].

(** A request on its way through the middleware of lines 45-66 and the
    route it matches, once [express.json()] has left its body in
    [req.body] and provided [res.setHeader] takes the value: the header
    is set, [next()] is called and the route's handler replies. What
    happens when the body is refused, when [res.setHeader] throws or when
    no route matches is added by [server] below. *)
Definition app (req : request) (st : settingsByShop) : settingsByShop * response :=
  let csp := ("Content-Security-Policy", contentSecurityPolicy (query_shop req)) in
  let '(st', (code, out)) :=
    match target req with
    | GET_api_settings => get_api_settings req st
    | POST_api_settings => post_api_settings req st
    | GET_root => (st, (200, SettingsPage))
    | GET_auth_callback =>
        (st, (200, Text "Orderly starter: auth callback placeholder. Next step is implementing Shopify OAuth here."))
    | GET_health =>
        (st, (200, Json (JObj [ ("ok", JBool true); ("service", JStr "orderly-starter") ])))
    end in
  (st', {| status := code; headers := [csp]; sent := out |}).

(** The store after serving a sequence of requests, oldest first. *)
Fixpoint serve (reqs : list request) (st : settingsByShop) : settingsByShop :=
  match reqs with
  | [] => st
  | req :: rest => serve rest (fst (app req st))
  end.

(** The stores the process can hold: it starts with an empty [Map]. *)
Definition reachable (st : settingsByShop) : Prop :=
  exists reqs, st = serve reqs ∅.

(** ** Around the handlers: [express.json()], [res.setHeader], no route

    Library code, not part of [src/]: the JSON body parser registered at
    line 16 with its default options, the check Node makes on a header
    value in [res.setHeader] (line 53), and the reply of Express' final
    handler when a middleware fails or no route matches. *)

(** The default [limit] of [express.json()], 100kb, in bytes. *)
Definition body_limit : N := 102400.

(** The body of a request as it arrives: none that [express.json()]
    reads (no body, or one that is not [application/json]), or a JSON
    body of [bytes] bytes whose text is the JSON value [text], [None] for
    a text that is not JSON. *)
Inductive received : Type :=
| NoJson
| JsonBody (bytes : N) (text : option json).

(** The outcome of [express.json()]: [req.body], or the status of the
    error it passes to [next]. *)
Inductive parsed : Type :=
| Accepted (b : option json)
| Refused (code : nat).

(** [express.json()]: 413 over the limit; [{}] for an empty body; in
    strict mode only an object or an array is taken, anything else is
    400. A request it does not read keeps no body of its own, which the
    POST handler reads as [{}]. *)
Definition express_json (r : received) : parsed :=
  match r with
  | NoJson => Accepted None
  | JsonBody bytes text =>
      if (body_limit <? bytes)%N then Refused 413
      else if (bytes =? 0)%N then Accepted (Some (JObj []))
      else match text with
           | Some (JObj props) => Accepted (Some (JObj props))
           | Some (JArr items) => Accepted (Some (JArr items))
           | _ => Refused 400
           end
  end.

(** A code unit Node takes in a header value: a tab, [0x20] to [0x7e],
    [0x80] to [0xff]. Code units above [0xff], which Node refuses too,
    are not elements of [string]. *)
Definition header_char_ok (c : ascii) : bool :=
  let n := nat_of_ascii c in
  (n =? 9)%nat || ((32 <=? n)%nat && (n <=? 126)%nat) || (128 <=? n)%nat.

Fixpoint all_chars (ok : ascii -> bool) (s : string) : bool :=
  match s with
  | EmptyString => true
  | String c rest => ok c && all_chars ok rest
  end.

(** [res.setHeader(name, value)] returns; otherwise it throws. *)
Definition header_value_ok (value : string) : bool :=
  all_chars header_char_ok value.

(** An HTTP request as it arrives: the route its method and path match
    among those registered, [None] when there is none; [req.query.shop];
    its body. *)
Record exchange : Type := mkExchange {
  matched : option route;
  shop_query : option qvalue;
  received_body : received
}.

(** The reply of Express' final handler: the status of the failure, an
    HTML page, and a policy of its own in place of the application's. *)
Definition final_handler (code : nat) : response :=
  {| status := code;
     headers := [ ("Content-Security-Policy", "default-src 'none'") ];
     sent := ErrorPage |}.

(** One request through the whole stack, in the order of [app.use]:
    [express.json()] (line 16), the middleware that sets the header
    (lines 45-66), then the route. A body that is refused, a header value
    that makes [res.setHeader] throw (status 500) and a request without a
    route (status 404) go to the final handler and leave the store as it
    is; every other request is served as [app] says. *)
Definition server (x : exchange) (st : settingsByShop) : settingsByShop * response :=
  match express_json (received_body x) with
  | Refused code => (st, final_handler code)
  | Accepted b =>
      if header_value_ok (contentSecurityPolicy (shop_query x)) then
        match matched x with
        | Some r => app {| target := r; query_shop := shop_query x; body := b |} st
        | None => (st, final_handler 404)
        end
      else (st, final_handler 500)
  end.

(** The store after a sequence of requests has arrived, oldest first. *)
Fixpoint receive (xs : list exchange) (st : settingsByShop) : settingsByShop :=
  match xs with
  | [] => st
  | x :: rest => receive rest (fst (server x st))
  end.

(** GET [/api/settings?shop=s], without a body. *)
Definition get_exchange (s : string) : exchange :=
  {| matched := Some GET_api_settings;
     shop_query := Some (QString s);
     received_body := NoJson |}.

(** POST [/api/settings?shop=s] with a JSON body of [bytes] bytes that
    parses to [v]. *)
Definition post_exchange (s : string) (bytes : N) (v : json) : exchange :=
  {| matched := Some POST_api_settings;
     shop_query := Some (QString s);
     received_body := JsonBody bytes (Some v) |}.

(** ** Vocabulary of the properties *)



(** A POST on [/api/settings] for shop [s] with body [b]. *)
Definition post_settings (s : string) (b : option json) : request :=
  {| target := POST_api_settings; query_shop := Some (QString s); body := b |}.

(** A GET on [/api/settings] for shop [s]. *)
Definition get_settings (s : string) : request :=
  {| target := GET_api_settings; query_shop := Some (QString s); body := None |}.

(** The body [{notifyDelivered: false}]. *)
Definition only_notifyDelivered_false : option json :=
  Some (JObj [ ("notifyDelivered", JBool false) ]).

(** Merging [{notifyDelivered: false}] into the record of [s] changes
    [notifyDelivered] and nothing else. *)
Definition merge_keeps_other_fields (st : gmap string Settings) (s : string) : Prop :=
  forall r, st !! s = Some r ->
  exists r',
    (app (post_settings s only_notifyDelivered_false) st).1 !! s = Some r' /\
    brandName r' = brandName r /\
    accent r' = accent r /\
    notifyDelay r' = notifyDelay r /\
    notifyOutForDelivery r' = notifyOutForDelivery r /\
    notifyDelivered r' = false.

(** Every record sits under the key named by its [shop] field. *)
Definition keyed_by_shop (st : gmap string Settings) : Prop :=
  forall k r, st !! k = Some r -> shop r = k.

(** Every stored [brandName] has at most 40 elements. *)
Definition brandName_bounded (st : gmap string Settings) : Prop :=
  forall k r, st !! k = Some r -> String.length (brandName r) <= 40.

(** A request that reaches the body of a settings handler with shop [k]:
    the only kind of request that calls [settingsByShop.set]. *)
Definition sets_shop (req : request) (k : string) : Prop :=
  (target req = GET_api_settings \/ target req = POST_api_settings) /\
  shop_param (query_shop req) = Some k.

(** A request that gets past [express.json()] and [res.setHeader] and
    reaches the body of a settings handler with shop [k]. *)
Definition served_for (x : exchange) (k : string) : Prop :=
  (matched x = Some GET_api_settings \/ matched x = Some POST_api_settings) /\
  shop_query x = Some (QString k) /\ k <> "" /\
  (exists b, express_json (received_body x) = Accepted b) /\
  header_value_ok (contentSecurityPolicy (Some (QString k))) = true.

(** The shop of [?shop=a%0A.myshopify.com]: a line feed inside a name
    that ends with [.myshopify.com]. *)
Definition shop_with_newline : string :=
  "a" +:+ String (ascii_of_nat 10) ".myshopify.com".

(** [n] times the code unit [c]. *)
Fixpoint copies (n : nat) (c : ascii) : string :=
  match n with
  | O => EmptyString
  | S m => String c (copies m c)
  end.


(** C4 as worded, for shop [s]: when [s] is not empty and has no record,
    a GET sends the default record and stores it. *)
Definition new_shop_gets_default (s : string) (st : gmap string Settings) : Prop :=
  s <> "" -> st !! s = None ->
  sent (server (get_exchange s) st).2 = Json (ok_settings (defaultSettings s)) /\
  (server (get_exchange s) st).1 !! s = Some (defaultSettings s).

(** C5 as worded, for the POST of [{brandName: name}] for shop [s]: what
    is stored is a prefix of [name] of at most 40 elements. *)
Definition posted_brandName_cut (s : string) (bytes : N) (name : string)
    (st : gmap string Settings) : Prop :=
  exists next rest,
    (server (post_exchange s bytes (JObj [ ("brandName", JStr name) ])) st).1 !! s
      = Some next /\
    name = brandName next +:+ rest /\
    String.length (brandName next) <= 40.

(** C9 as worded, for one response: it has a [Content-Security-Policy]
    whose [frame-ancestors] holds the two fixed sources. *)
Definition allows_shopify_frames (r : response) : Prop :=
  exists value before after,
    In ("Content-Security-Policy", value) (headers r) /\
    value = before
            +:+ "frame-ancestors https://admin.shopify.com https://*.myshopify.com"
            +:+ after.

(** ** The script of the settings page

    The inline script sent by GET [/]: [setMetricsFromSettings],
    [loadSettings] and [saveSettings]. A run of a function is the list of
    its writes to the document, oldest first, together with the store of
    the server it talks to; an [await] is a call of [server]. String
    literals with characters outside ASCII are written in UTF-8. *)

Module Page.

(** One assignment to an element of the document. *)
Inductive dom_write : Type :=
| SetText (id text : string)                     (* el.textContent = text *)
| SetTextConcat (id prefix : string) (v : json)  (* el.textContent = prefix + v *)
| SetTextNumber (id : string) (n : nat)          (* el.textContent = n *)
| SetValue (id : string) (v : json)              (* el.value = v *)
| SetChecked (id : string) (b : bool).           (* el.checked = b *)

(** What [saveSettings] reads from the form: the [value] of the two
    inputs and the [checked] state of the three boxes. *)
Record form : Type := mkForm {
  in_brandName : string;
  in_accent : string;
  in_notifyDelay : bool;
  in_notifyOutForDelivery : bool;
  in_notifyDelivered : bool
}.

(** [params.get("shop") || ""], where [get] gives [null] for a parameter
    that is not in the URL. *)
Definition page_shop (param : option string) : string :=
  match param with
  | Some s => if String.eqb s "" then "" else s
  | None => ""
  end.

(** [v || d] *)
Definition or_else (v : option json) (d : json) : json :=
  match v with
  | Some w => if truthy w then w else d
  | None => d
  end.

(** [x ? 1 : 0] *)
Definition one_if (v : option json) : nat := if Boolean v then 1 else 0.

Definition setMetricsFromSettings (s : json) : list dom_write :=
  let enabledCount :=
    one_if (get_prop s "notifyDelay") +
    one_if (get_prop s "notifyOutForDelivery") +
    one_if (get_prop s "notifyDelivered") in
  [ SetTextNumber "mEnabled" enabledCount;
    SetText "mOrders" "—";
    SetText "mUpdates" "—" ].

(** [await fetch(url, ...)] then [await r.json()]: the request goes
    through [server]; [None] when the reply is not JSON (the page of the
    final handler) and [r.json()] rejects, which ends the function. The
    shop encoded by [encodeURIComponent] reaches the server as the string
    it was. *)
Definition fetch_json (x : exchange) (st : settingsByShop)
  : settingsByShop * option json :=
  let '(st', r) := server x st in
  (st', match sent r with Json v => Some v | _ => None end).

(** The body of [loadSettings] after [data] has arrived. A property read
    on [null] or [undefined] throws and ends the function there. *)
Definition loaded (data : option json) : list dom_write :=
  match data with
  | None | Some JNull => []
  | Some d =>
      if negb (Boolean (get_prop d "ok")) then
        [ SetTextConcat "msg" "Error: " (or_else (get_prop d "error") (JStr "unknown")) ]
      else
        match get_prop d "settings" with
        | None | Some JNull => []
        | Some s =>
            [ SetValue "brandName" (or_else (get_prop s "brandName") (JStr "Orderly"));
              SetValue "accent" (or_else (get_prop s "accent") (JStr "#16a34a"));
              SetChecked "notifyDelay" (Boolean (get_prop s "notifyDelay"));
              SetChecked "notifyOutForDelivery" (Boolean (get_prop s "notifyOutForDelivery"));
              SetChecked "notifyDelivered" (Boolean (get_prop s "notifyDelivered")) ]
            ++ setMetricsFromSettings s
            ++ [ SetText "msg" "Loaded." ]
        end
  end.

Definition loadSettings (shop : string) (st : settingsByShop)
  : settingsByShop * list dom_write :=
  if String.eqb shop "" then
    (st, [ SetText "msg" "Missing ?shop= in URL. Open app from Shopify Admin." ])
  else
    let '(st', data) := fetch_json (get_exchange shop) st in
    (st', SetText "msg" "Loading..." :: loaded data).

(** The object [payload] of [saveSettings], as the server parses it. *)
Definition save_payload (f : form) : json :=
  JObj [ ("brandName", JStr (in_brandName f));
         ("accent", JStr (in_accent f));
         ("notifyDelay", JBool (in_notifyDelay f));
         ("notifyOutForDelivery", JBool (in_notifyOutForDelivery f));
         ("notifyDelivered", JBool (in_notifyDelivered f)) ].

(** Bytes one code unit takes in a string written by [JSON.stringify]
    and sent as UTF-8: two for a quote, a backslash and the five control
    characters with a short escape, six for the other control characters
    ([\u00XX]), one for the rest of ASCII, two from [0x80] on. *)
Definition quoted_bytes (c : ascii) : N :=
  let n := nat_of_ascii c in
  if (n =? 34)%nat || (n =? 92)%nat then 2
  else if (n =? 8)%nat || (n =? 9)%nat || (n =? 10)%nat || (n =? 12)%nat
          || (n =? 13)%nat then 2
  else if (n <? 32)%nat then 6
  else if (n <? 128)%nat then 1
  else 2.

Fixpoint string_bytes (s : string) : N :=
  match s with
  | EmptyString => 0
  | String c rest => quoted_bytes c + string_bytes rest
  end.

(** [true] and [false] *)
Definition bool_bytes (b : bool) : N := if b then 4 else 5.

(** The size of [JSON.stringify(payload)]: two braces, four commas, for
    each key its name, two quotes and a colon, and the five values, the
    two strings between quotes. *)
Definition payload_bytes (f : form) : N :=
  (2 + 4
   + (N.of_nat (String.length "brandName") + 3)
   + (2 + string_bytes (in_brandName f))
   + (N.of_nat (String.length "accent") + 3)
   + (2 + string_bytes (in_accent f))
   + (N.of_nat (String.length "notifyDelay") + 3)
   + bool_bytes (in_notifyDelay f)
   + (N.of_nat (String.length "notifyOutForDelivery") + 3)
   + bool_bytes (in_notifyOutForDelivery f)
   + (N.of_nat (String.length "notifyDelivered") + 3)
   + bool_bytes (in_notifyDelivered f))%N.

(** The body of [saveSettings] after [data] has arrived. *)
Definition saved (data : option json) : list dom_write :=
  match data with
  | None | Some JNull => []
  | Some d =>
      if negb (Boolean (get_prop d "ok")) then
        [ SetTextConcat "msg" "Save failed: " (or_else (get_prop d "error") (JStr "unknown")) ]
      else
        match get_prop d "settings" with
        | None | Some JNull => []
        | Some s => setMetricsFromSettings s ++ [ SetText "msg" "✅ Saved." ]
        end
  end.

Definition saveSettings (shop : string) (f : form) (st : settingsByShop)
  : settingsByShop * list dom_write :=
  if String.eqb shop "" then
    (st, [ SetText "msg" "Missing ?shop= in URL." ])
  else
    let '(st', data) :=
      fetch_json (post_exchange shop (payload_bytes f) (save_payload f)) st in
    (st', SetText "msg" "Saving..." :: saved data).

(** The script from its first line to the call of [loadSettings] that
    ends it; [param] is the [shop] parameter of the page's URL. *)
Definition script (param : option string) (st : settingsByShop)
  : settingsByShop * list dom_write :=
  let shop := page_shop param in
  let '(st', writes) := loadSettings shop st in
  (st', SetText "shopText" (if String.eqb shop "" then "(missing shop param)" else shop)
        :: writes).

(** How many of three boxes are ticked. *)
Definition ticked (a b c : bool) : nat :=
  (if a then 1 else 0) + (if b then 1 else 0) + (if c then 1 else 0).

(** A write that shows a failure reported by the server. *)
Definition shows_failure (w : dom_write) : Prop :=
  match w with
  | SetTextConcat _ _ _ => True
  | _ => False
  end.

End Page.

(** ** Facts about the built-ins *)

Section Strings.

Implicit Types (s p suffix : string) (n m : nat).

Lemma substring_0_length s : forall m,
  String.length (String.substring 0 m s) = Nat.min m (String.length s).
Proof.
  induction s as [|c s IH]; intros [|m]; simpl; auto.
Qed.

Lemma substring_0_prefix s : forall m,
  exists rest, s = String.substring 0 m s +:+ rest.
Proof.
  induction s as [|c s IH]; intros [|m]; simpl.
  - by exists "".
  - by exists "".
  - by exists (String c s).
  - destruct (IH m) as [rest Hrest]. exists rest.
    change (String c s = String c (String.substring 0 m s +:+ rest)).
    congruence.
Qed.

Lemma substring_0_all s : String.substring 0 (String.length s) s = s.
Proof. induction s as [|c s IH]; simpl; congruence. Qed.

Lemma substring_skip p : forall s m,
  String.substring (String.length p) m (p +:+ s) = String.substring 0 m s.
Proof.
  induction p as [|c p IH]; intros s m; [done|].
  change (String.substring (String.length p) m (p +:+ s) = String.substring 0 m s).
  apply IH.
Qed.

Lemma substring_split n : forall s,
  n <= String.length s ->
  s = String.substring 0 n s +:+ String.substring n (String.length s - n) s.
Proof.
  induction n as [|n IH]; intros [|c s] Hn; simpl in *; try lia.
  - done.
  - by rewrite substring_0_all.
  - change (String c s = String c (String.substring 0 n s +:+
                                     String.substring n (String.length s - n) s)).
    f_equal. apply IH. lia.
Qed.

Lemma append_length p s :
  String.length (p +:+ s) = String.length p + String.length s.
Proof.
  induction p as [|c p IH]; [done|].
  change (S (String.length (p +:+ s)) = S (String.length p) + String.length s).
  rewrite IH. done.
Qed.

Lemma append_inj_l p s (s' : string) : p +:+ s = p +:+ s' -> s = s'.
Proof.
  induction p as [|c p IH]; [done|].
  change (String c (p +:+ s) = String c (p +:+ s') -> s = s').
  intros [= H]. by apply IH.
Qed.

(** [endsWith] holds exactly of the strings that are some prefix followed
    by the suffix. *)
Lemma endsWith_spec s suffix :
  endsWith s suffix = true <-> exists p, s = p +:+ suffix.
Proof.
  unfold endsWith. split.
  - destruct (Nat.leb_spec (String.length suffix) (String.length s)) as [Hle|Hlt];
      [|discriminate].
    intros Heq%String.eqb_eq.
    exists (String.substring 0 (String.length s - String.length suffix) s).
    pose proof (substring_split (String.length s - String.length suffix) s) as Hs.
    replace (String.length s - (String.length s - String.length suffix))
      with (String.length suffix) in Hs by lia.
    rewrite Heq in Hs. apply Hs. lia.
  - intros [p ->]. rewrite append_length.
    destruct (Nat.leb_spec (String.length suffix)
                (String.length p + String.length suffix)) as [_|Hlt]; [|lia].
    replace (String.length p + String.length suffix - String.length suffix)
      with (String.length p) by lia.
    rewrite substring_skip, substring_0_all. apply String.eqb_refl.
Qed.

(** [s.slice(0, n)] keeps the first [n] elements of [s], all of [s] when
    it is shorter. *)
Lemma slice_0 s n :
  slice s 0 (Z.of_nat n) = String.substring 0 (Nat.min n (String.length s)) s.
Proof.
  unfold slice, clamp_index. change (0 <? 0)%Z with false. cbv iota.
  replace (Z.of_nat n <? 0)%Z with false by (symmetry; apply Z.ltb_ge; lia).
  rewrite (Z.min_l 0) by lia. rewrite <- Nat2Z.inj_min.
  destruct (Z.leb_spec (Z.of_nat (Nat.min n (String.length s))) 0) as [Hz|Hpos].
  - assert (Nat.min n (String.length s) = 0) as -> by lia.
    by destruct s.
  - rewrite Z.sub_0_r, Nat2Z.id. done.
Qed.

Lemma slice_0_length s n :
  String.length (slice s 0 (Z.of_nat n)) = Nat.min n (String.length s).
Proof. rewrite slice_0, substring_0_length. lia. Qed.

Lemma slice_0_prefix s n : exists rest, s = slice s 0 (Z.of_nat n) +:+ rest.
Proof. rewrite slice_0. apply substring_0_prefix. Qed.

End Strings.

(** ** The guard and one step of the store *)

Section Steps.

Implicit Types (st : gmap string Settings) (req : request) (s k : string).

Lemma shop_param_Some q s :
  shop_param q = Some s <-> q = Some (QString s) /\ s <> "".
Proof.
  unfold shop_param. destruct q as [[x| |]|]; simpl; try (split; [done|by intros [? _]]).
  destruct (String.eqb_spec x "") as [->|Hne]; simpl.
  - split; [done|]. intros [[= <-] Hs]. by destruct Hs.
  - split; [by intros [= ->]|]. by intros [[= ->] _].
Qed.

Lemma shop_param_None q :
  shop_param q = None <->
  q = None \/ q = Some (QString "") \/ exists v, q = Some v /\ forall s, v <> QString s.
Proof.
  unfold shop_param. destruct q as [[x| |]|]; simpl.
  - destruct (String.eqb_spec x "") as [->|Hne]; simpl.
    + split; [by right; left|done].
    + split; [done|]. intros [|[[= ->]|(v & [= <-] & Hv)]]; try done.
      by destruct (Hv x).
  - split; [|done]. intros _. right; right. eexists. split; [done|]. done.
  - split; [|done]. intros _. right; right. eexists. split; [done|]. done.
  - split; [by left|done].
Qed.

(** After [req.body || {}] the handler holds an object or an array, never
    [null]: every property read in [merge] is defined JavaScript. *)
Lemma body_of_truthy b : truthy (body_of b) = true.
Proof. destruct b as [v|]; simpl; [|done]. by destruct (truthy v) eqn:E. Qed.

(** The store after one request. *)
Lemma app_store req st :
  (app req st).1 =
  match target req, shop_param (query_shop req) with
  | GET_api_settings, Some s => <[s := get_or_default st s]> st
  | POST_api_settings, Some s =>
      <[s := merge (get_or_default st s) (body_of (body req))]> st
  | _, _ => st
  end.
Proof.
  unfold app, get_api_settings, post_api_settings.
  by destruct (target req), (shop_param (query_shop req)).
Qed.

Lemma app_headers req st :
  headers (app req st).2 =
  [ ("Content-Security-Policy", contentSecurityPolicy (query_shop req)) ].
Proof.
  unfold app.
  by destruct (match target req with GET_root => _ | _ => _ end) as [? [? ?]].
Qed.

Lemma get_or_default_insert st s r : get_or_default (<[s := r]> st) s = r.
Proof. unfold get_or_default. by rewrite lookup_insert_eq. Qed.

Lemma app_lookup_ne req st s k :
  query_shop req = Some (QString s) -> k <> s -> (app req st).1 !! k = st !! k.
Proof.
  intros Hq Hk. rewrite app_store.
  destruct (shop_param (query_shop req)) as [s'|] eqn:Hs.
  - apply shop_param_Some in Hs as [Hs _]. rewrite Hq in Hs. injection Hs as <-.
    destruct (target req); try done; by rewrite lookup_insert_ne.
  - by destruct (target req).
Qed.

Lemma app_store_no_shop req st :
  shop_param (query_shop req) = None -> (app req st).1 = st.
Proof. intros Hs. rewrite app_store, Hs. by destruct (target req). Qed.

End Steps.

(** ** Merge-update *)

Section Merge.

Implicit Types (st : gmap string Settings) (s : string) (b : option json).



(** What a POST with a usable [shop] stores and sends. *)
Lemma post_settings_app s b st :
  s <> "" ->
  let next := merge (get_or_default st s) (body_of b) in
  app (post_settings s b) st =
  (<[s := next]> st,
   {| status := 200;
      headers := [ ("Content-Security-Policy",
                    contentSecurityPolicy (Some (QString s))) ];
      sent := Json (ok_settings next) |}).
Proof.
  intros Hs next.
  assert (shop_param (Some (QString s)) = Some s) as Hp by (by apply shop_param_Some).
  unfold app, post_api_settings, post_settings. simpl. by rewrite Hp.
Qed.

Lemma serve_invariant (P : gmap string Settings -> Prop) :
  (forall req st, P st -> P (app req st).1) ->
  forall reqs st, P st -> P (serve reqs st).
Proof.
  intros Hstep reqs. induction reqs as [|req reqs IH]; intros st HP; simpl; auto.
Qed.

Lemma reachable_invariant (P : gmap string Settings -> Prop) :
  P ∅ ->
  (forall req st, P st -> P (app req st).1) ->
  forall st, reachable st -> P st.
Proof. intros H0 Hstep st [reqs ->]. by apply serve_invariant. Qed.

(** An entry is never removed, and its [shop] field never changes. *)
Lemma app_keeps_shop req st k r :
  st !! k = Some r ->
  exists r', (app req st).1 !! k = Some r' /\ shop r' = shop r.
Proof.
  intros Hk. rewrite app_store.
  destruct (target req); eauto;
    destruct (shop_param (query_shop req)) as [s|]; eauto;
    (destruct (decide (s = k)) as [->|Hne];
       [rewrite lookup_insert_eq; unfold get_or_default; rewrite Hk; eauto
       |rewrite lookup_insert_ne by done; eauto]).
Qed.

Lemma app_keyed_by_shop req st : keyed_by_shop st -> keyed_by_shop (app req st).1.
Proof.
  intros Hst k r. rewrite app_store.
  assert (forall s, shop (get_or_default st s) = s) as Hdef.
  { intros s. unfold get_or_default. destruct (st !! s) eqn:E; [by apply Hst|done]. }
  destruct (target req); try apply Hst;
    destruct (shop_param (query_shop req)) as [s|]; try apply Hst;
    (destruct (decide (s = k)) as [->|Hne];
       [rewrite lookup_insert_eq; intros [= <-]; apply Hdef
       |rewrite lookup_insert_ne by done; apply Hst]).
Qed.

Lemma merge_brandName_bounded prev v :
  String.length (brandName prev) <= 40 ->
  String.length (brandName (merge prev v)) <= 40.
Proof.
  intros Hprev. unfold merge; simpl.
  destruct (get_prop v "brandName") as [[]|]; try done.
  change 40%Z with (Z.of_nat 40). rewrite slice_0_length. lia.
Qed.

Lemma app_brandName_bounded req st :
  brandName_bounded st -> brandName_bounded (app req st).1.
Proof.
  intros Hst k r. rewrite app_store.
  assert (forall s, String.length (brandName (get_or_default st s)) <= 40) as Hdef.
  { intros s. unfold get_or_default.
    destruct (st !! s) eqn:E; [by eapply Hst|simpl; lia]. }
  destruct (target req); try apply Hst;
    destruct (shop_param (query_shop req)) as [s|]; try apply Hst;
    (destruct (decide (s = k)) as [->|Hne];
       [rewrite lookup_insert_eq; intros [= <-];
        first [apply merge_brandName_bounded|idtac]; apply Hdef
       |rewrite lookup_insert_ne by done; apply Hst]).
Qed.

End Merge.

(** ** The whole stack *)

Section Stack.

Implicit Types (st : gmap string Settings) (x : exchange) (s k : string)
  (b : option json).

Lemma shop_param_string s : s <> "" -> shop_param (Some (QString s)) = Some s.
Proof. intros Hs. by apply shop_param_Some. Qed.

(** [res.setHeader] throws exactly for a shop that ends with
    [.myshopify.com] and holds a code unit Node does not take. *)
Lemma header_value_ok_policy q :
  header_value_ok (contentSecurityPolicy q) =
  match q with
  | Some (QString s) =>
      if endsWith s ".myshopify.com" then all_chars header_char_ok s else true
  | _ => true
  end.
Proof.
  unfold contentSecurityPolicy, frameAncestors.
  destruct q as [[s| |]|]; try reflexivity.
  by destruct (endsWith s ".myshopify.com").
Qed.

(** A request that gets past the parser and [res.setHeader] and has a
    route is served as [app] says. *)
Lemma server_served x st b r :
  express_json (received_body x) = Accepted b ->
  header_value_ok (contentSecurityPolicy (shop_query x)) = true ->
  matched x = Some r ->
  server x st = app {| target := r; query_shop := shop_query x; body := b |} st.
Proof. intros Hb Hh Hr. unfold server. by rewrite Hb, Hh, Hr. Qed.

(** Any other request leaves the store as it is. *)
Lemma server_cases x st :
  (server x st).1 = st \/ exists req, server x st = app req st.
Proof.
  unfold server. destruct (express_json (received_body x)) as [b|code]; [|by left].
  destruct (header_value_ok _); [|by left].
  destruct (matched x) as [r|]; [right; by eexists|by left].
Qed.

Lemma server_invariant (P : gmap string Settings -> Prop) x st :
  (forall req st', P st' -> P (app req st').1) -> P st -> P (server x st).1.
Proof.
  intros Hstep HP. destruct (server_cases x st) as [->|[req ->]]; auto.
Qed.

Lemma receive_invariant (P : gmap string Settings -> Prop) :
  (forall req st, P st -> P (app req st).1) ->
  forall xs st, P st -> P (receive xs st).
Proof.
  intros Hstep xs. induction xs as [|x xs IH]; intros st HP; simpl; [done|].
  apply IH. by apply server_invariant.
Qed.

(** What a GET that is served stores and sends. *)
Lemma server_get x s b st :
  matched x = Some GET_api_settings ->
  shop_query x = Some (QString s) ->
  s <> "" ->
  express_json (received_body x) = Accepted b ->
  header_value_ok (contentSecurityPolicy (Some (QString s))) = true ->
  let current := get_or_default st s in
  server x st =
  (<[s := current]> st,
   {| status := 200;
      headers := [ ("Content-Security-Policy",
                    contentSecurityPolicy (Some (QString s))) ];
      sent := Json (ok_settings current) |}).
Proof.
  intros Hm Hq Hs Hb Hh current.
  rewrite (server_served x st b GET_api_settings) by (by rewrite ?Hq).
  unfold app, get_api_settings. simpl. by rewrite Hq, shop_param_string.
Qed.

(** What a POST that is served stores and sends. *)
Lemma server_post x s b st :
  matched x = Some POST_api_settings ->
  shop_query x = Some (QString s) ->
  s <> "" ->
  express_json (received_body x) = Accepted b ->
  header_value_ok (contentSecurityPolicy (Some (QString s))) = true ->
  let next := merge (get_or_default st s) (body_of b) in
  server x st =
  (<[s := next]> st,
   {| status := 200;
      headers := [ ("Content-Security-Policy",
                    contentSecurityPolicy (Some (QString s))) ];
      sent := Json (ok_settings next) |}).
Proof.
  intros Hm Hq Hs Hb Hh next.
  rewrite (server_served x st b POST_api_settings) by (by rewrite ?Hq).
  unfold app, post_api_settings. simpl. by rewrite Hq, shop_param_string.
Qed.

Lemma server_lookup_is_Some x st k :
  is_Some ((server x st).1 !! k) <-> is_Some (st !! k) \/ served_for x k.
Proof.
  unfold served_for, server.
  destruct (express_json (received_body x)) as [b|code] eqn:Hb.
  2:{ split; [by left|]. intros [?|(_ & _ & _ & [b' ?] & _)]; done. }
  destruct (header_value_ok (contentSecurityPolicy (shop_query x))) eqn:Hh.
  2:{ split; [by left|]. intros [?|(_ & Hq & _ & _ & Hk)]; [done|].
      rewrite Hq in Hh. congruence. }
  destruct (matched x) as [r|] eqn:Hm.
  2:{ split; [by left|]. by intros [?|([?|?] & _)]. }
  rewrite app_store. simpl.
  destruct (shop_param (shop_query x)) as [s|] eqn:Hp.
  - destruct (proj1 (shop_param_Some _ _) Hp) as [Hq Hs].
    destruct r; try (split; [by left|]; by intros [?|([[=]|[=]] & _)]);
      (rewrite lookup_insert_is_Some'; split;
       [intros [->|?]; [right|by left];
        split; [auto|]; split; [done|]; split; [done|];
        split; [by eexists|by rewrite <- Hq]
       |intros [?|(_ & Hq' & _)]; [by right|];
        left; rewrite Hq in Hq'; by injection Hq']).
  - assert (forall k', ~ (shop_query x = Some (QString k') /\ k' <> "")) as Hno.
    { intros k' [Hq Hk']. rewrite Hq, shop_param_string in Hp; done. }
    destruct r; (split; [by left|]);
      (intros [?|(_ & Hq & Hk & _)]; [done|]; by destruct (Hno k)).
Qed.

Lemma receive_lookup_is_Some xs : forall st k,
  is_Some (receive xs st !! k) <->
  is_Some (st !! k) \/ exists x, In x xs /\ served_for x k.
Proof.
  induction xs as [|x xs IH]; intros st k; simpl.
  - split; [by left|]. by intros [?|(? & [] & _)].
  - rewrite IH, server_lookup_is_Some. split.
    + intros [[?|?]|(y & ? & ?)]; [by left|right; exists x; auto|right; exists y; auto].
    + intros [?|(y & [<-|?] & ?)]; [by left; left|by left; right|right; by exists y].
Qed.

End Stack.

(** ** Properties of the settings API *)

(** The end-to-end run of the specification: a POST of a full body for
    [acme.myshopify.com], then a GET of the same shop. *)
Example post_then_get :
  let s := "acme.myshopify.com" in
  let b := Some (JObj [ ("brandName", JStr "Acme Co");
                        ("accent", JStr "#ff0000");
                        ("notifyDelay", JBool false);
                        ("notifyOutForDelivery", JBool true);
                        ("notifyDelivered", JBool true) ]) in
  sent (app (get_settings s) (serve [ post_settings s b ] ∅)).2 =
    Json (ok_settings (mkSettings s "Acme Co" "#ff0000" false true true)).
Proof. vm_compute. reflexivity. Qed.

(** C1 as the specification words it: posting only
    [{notifyDelivered: false}] would leave the two other flags alone. It
    does not: after a first GET has stored the defaults for a shop, that
    POST turns [notifyDelay] from [true] to [false]. *)
Lemma merge_keeps_other_fields_fails :
  ~ merge_keeps_other_fields
      (serve [ get_settings "acme.myshopify.com" ] ∅) "acme.myshopify.com".
Proof.
  intros Hclaim.
  destruct (Hclaim (defaultSettings "acme.myshopify.com")) as (r' & Hr' & _ & _ & Hdelay & _).
  - vm_compute. reflexivity.
  - vm_compute in Hr'. injection Hr' as <-. discriminate Hdelay.
Qed.

(** C1, amended. For a shop that has a record, a POST whose body is only
    [{notifyDelivered: false}] keeps [shop], [brandName] and [accent],
    sets [notifyDelivered] to [false], and sets [notifyDelay] and
    [notifyOutForDelivery], which the body does not mention, to [false]
    as well; the reply carries the same record. *)
Theorem merge_only_notifyDelivered (s : string) (r : Settings)
    (st : gmap string Settings) :
  s <> "" ->
  st !! s = Some r ->
  let req := post_settings s only_notifyDelivered_false in
  let next := mkSettings (shop r) (brandName r) (accent r) false false false in
  (app req st).1 !! s = Some next /\
  sent (app req st).2 = Json (ok_settings next).
Proof.
  intros Hs Hr req next. unfold req. rewrite post_settings_app by done.
  unfold get_or_default. rewrite Hr. simpl. by rewrite lookup_insert_eq.
Qed.

Lemma merge_only_notifyDelivered_witness :
  let s := "acme.myshopify.com" in
  let r := mkSettings s "Acme Co" "#ff0000" true true true in
  let st : gmap string Settings := {[ s := r ]} in
  s <> "" /\ st !! s = Some r /\
  (app (post_settings s only_notifyDelivered_false) st).1 !! s =
    Some (mkSettings s "Acme Co" "#ff0000" false false false).
Proof.
  intros s r st.
  assert (s <> "") as Hs by discriminate.
  assert (st !! s = Some r) as Hr by (vm_compute; reflexivity).
  split; [exact Hs|]. split; [exact Hr|].
  exact (proj1 (merge_only_notifyDelivered s r st Hs Hr)).
Defined.




(** C3. A GET or POST on [/api/settings] whose [shop] query parameter is
    missing, empty or not a string is answered with status 400 and the
    envelope [{ok: false, error: "Missing ?shop="}], and the store is the
    one before the request: no entry is created or changed. *)
Theorem missing_shop_rejected (req : request) (st : gmap string Settings) :
  target req = GET_api_settings \/ target req = POST_api_settings ->
  (query_shop req = None \/
   query_shop req = Some (QString "") \/
   exists v, query_shop req = Some v /\ forall s, v <> QString s) ->
  (app req st).1 = st /\
  status (app req st).2 = 400 /\
  sent (app req st).2 =
    Json (JObj [ ("ok", JBool false); ("error", JStr "Missing ?shop=") ]).
Proof.
  intros Ht Hq%shop_param_None.
  unfold app, get_api_settings, post_api_settings.
  destruct Ht as [-> | ->]; rewrite Hq; done.
Qed.

Lemma missing_shop_rejected_witness :
  let req := mkRequest POST_api_settings (Some (QArray [QString "a"; QString "b"]))
               (Some (JObj [ ("brandName", JStr "Acme") ])) in
  let st : gmap string Settings := {[ "a" := defaultSettings "a" ]} in
  (app req st).1 = st /\
  status (app req st).2 = 400 /\
  sent (app req st).2 =
    Json (JObj [ ("ok", JBool false); ("error", JStr "Missing ?shop=") ]).
Proof.
  apply missing_shop_rejected.
  - right. reflexivity.
  - right. right. eexists. split; [reflexivity | discriminate].
Defined.

(** C4 as the specification words it, for every non-empty shop without a
    record. It fails for the shop of [?shop=a%0A.myshopify.com] on the
    empty store: [res.setHeader] throws, the reply is the page of the
    final handler with status 500 and nothing is stored. *)
Lemma new_shop_gets_default_fails :
  ~ new_shop_gets_default shop_with_newline ∅.
Proof.
  intros Hclaim. destruct Hclaim as [Hsent _].
  - discriminate.
  - apply lookup_empty.
  - vm_compute in Hsent. discriminate Hsent.
Qed.

(** C4, amended. For a GET on [/api/settings] that [express.json()]
    accepts, with a non-empty string [shop] that has no entry yet and
    whose header value [res.setHeader] takes: the reply has status 200 and
    is [{ok: true, settings: r}] where [r] is the default record with that
    shop in its [shop] field, and [r] is stored under the shop. *)
Theorem fetch_new_shop_default (x : exchange) (s : string) (b : option json)
    (st : gmap string Settings) :
  matched x = Some GET_api_settings ->
  shop_query x = Some (QString s) ->
  s <> "" ->
  express_json (received_body x) = Accepted b ->
  header_value_ok (contentSecurityPolicy (Some (QString s))) = true ->
  st !! s = None ->
  let r := mkSettings s "Orderly" "#16a34a" true true true in
  status (server x st).2 = 200 /\
  sent (server x st).2 =
    Json (JObj [ ("ok", JBool true);
                 ("settings",
                  JObj [ ("shop", JStr s);
                         ("brandName", JStr "Orderly");
                         ("accent", JStr "#16a34a");
                         ("notifyDelay", JBool true);
                         ("notifyOutForDelivery", JBool true);
                         ("notifyDelivered", JBool true) ]) ]) /\
  (server x st).1 = <[s := r]> st /\
  (server x st).1 !! s = Some r.
Proof.
  intros Hm Hq Hs Hb Hh Hnew r.
  rewrite (server_get x s b st) by done.
  unfold get_or_default. rewrite Hnew. simpl.
  repeat split; try done. by rewrite lookup_insert_eq.
Qed.

Lemma fetch_new_shop_default_witness :
  let s := "acme.myshopify.com" in
  let st : gmap string Settings :=
    {[ "other.myshopify.com" := defaultSettings "other.myshopify.com" ]} in
  st !! s = None /\
  status (server (get_exchange s) st).2 = 200 /\
  (server (get_exchange s) st).1 !! s =
    Some (mkSettings s "Orderly" "#16a34a" true true true).
Proof.
  intros s st.
  assert (s <> "") as Hs by discriminate.
  assert (header_value_ok (contentSecurityPolicy (Some (QString s))) = true) as Hh
    by (vm_compute; reflexivity).
  assert (st !! s = None) as Hnew by (vm_compute; reflexivity).
  split; [exact Hnew|].
  destruct (fetch_new_shop_default (get_exchange s) s None st
              eq_refl eq_refl Hs eq_refl Hh Hnew) as (Hstatus & _ & _ & Hstored).
  split; [exact Hstatus|exact Hstored].
Defined.

(** C5 as the specification words it, for every shop and every string
    [brandName]. It fails twice: for a name of 50 elements posted for the
    shop of [?shop=a%0A.myshopify.com], where [res.setHeader] throws; and
    for a name of 110000 elements, whose body of 110016 bytes
    [express.json()] refuses with status 413. Nothing is stored either
    time. *)
Lemma posted_brandName_cut_fails :
  ~ posted_brandName_cut shop_with_newline 66
      "0123456789012345678901234567890123456789ABCDEFGHIJ" ∅ /\
  ~ posted_brandName_cut "acme.myshopify.com" 110016
      (copies (N.to_nat 110000) "a") ∅.
Proof.
  split; intros (next & rest & Hnext & _).
  - vm_compute in Hnext. discriminate Hnext.
  - unfold server, post_exchange in Hnext. simpl in Hnext.
    rewrite lookup_empty in Hnext. discriminate Hnext.
Qed.

(** C5, amended. For a POST on [/api/settings] that [express.json()]
    accepts (a body of at most 100kb), with a non-empty string [shop]
    whose header value [res.setHeader] takes and a string [brandName] in
    the body: the stored and returned [brandName] is its first 40
    elements, or all of it when it has fewer: a prefix of length at most
    40, of length exactly 40 for a name of 50. *)
Theorem brandName_truncated (x : exchange) (s name : string) (b : option json)
    (st : gmap string Settings) :
  matched x = Some POST_api_settings ->
  shop_query x = Some (QString s) ->
  s <> "" ->
  express_json (received_body x) = Accepted b ->
  header_value_ok (contentSecurityPolicy (Some (QString s))) = true ->
  get_prop (body_of b) "brandName" = Some (JStr name) ->
  exists next rest,
    (server x st).1 !! s = Some next /\
    sent (server x st).2 = Json (ok_settings next) /\
    name = brandName next +:+ rest /\
    String.length (brandName next) = Nat.min 40 (String.length name) /\
    String.length (brandName next) <= 40 /\
    (String.length name = 50 ->
     String.length (brandName next) = 40 /\ String.length rest = 10).
Proof.
  intros Hm Hq Hs Hb Hh Hname.
  rewrite (server_post x s b st) by done.
  destruct (slice_0_prefix name 40) as [rest Hrest].
  pose proof (slice_0_length name 40) as Hlen.
  exists (merge (get_or_default st s) (body_of b)), rest. simpl.
  rewrite Hname.
  split; [apply lookup_insert_eq|]. split; [done|].
  change 40%Z with (Z.of_nat 40). split; [exact Hrest|].
  split; [exact Hlen|]. split; [lia|].
  intros H50. split; [lia|].
  apply (f_equal String.length) in Hrest. rewrite append_length in Hrest. lia.
Qed.

Lemma brandName_truncated_witness :
  let s := "acme.myshopify.com" in
  let name := "0123456789012345678901234567890123456789ABCDEFGHIJ" in
  let x := post_exchange s 66 (JObj [ ("brandName", JStr name) ]) in
  String.length name = 50 /\
  exists next rest,
    (server x ∅).1 !! s = Some next /\
    name = brandName next +:+ rest /\
    String.length (brandName next) = 40.
Proof.
  intros s name x.
  assert (s <> "") as Hs by discriminate.
  assert (header_value_ok (contentSecurityPolicy (Some (QString s))) = true) as Hh
    by (vm_compute; reflexivity).
  assert (String.length name = 50) as H50 by reflexivity.
  split; [exact H50|].
  destruct (brandName_truncated x s name
              (Some (JObj [ ("brandName", JStr name) ])) ∅
              eq_refl eq_refl Hs eq_refl Hh eq_refl)
    as (next & rest & Hnext & _ & Hrest & _ & _ & Hfifty).
  exists next, rest. split; [exact Hnext|]. split; [exact Hrest|].
  exact (proj1 (Hfifty H50)).
Defined.

(** C6. Two consecutive GETs of [/api/settings] for the same shop give
    the same reply, and the second leaves the store as the first left it. *)
Theorem fetch_idempotent (q : option qvalue) (b1 b2 : option json)
    (st : gmap string Settings) :
  let first := app (mkRequest GET_api_settings q b1) st in
  let second := app (mkRequest GET_api_settings q b2) first.1 in
  second.2 = first.2 /\ second.1 = first.1.
Proof.
  unfold app, get_api_settings. simpl.
  destruct (shop_param q) as [s|]; simpl; [|done].
  rewrite get_or_default_insert. split; [done|]. apply insert_insert_eq.
Qed.

(** C7. In every store the process can reach, a record sits under the
    key equal to its [shop] field; and whatever the request, including a
    POST whose body has a [shop] field, an existing entry stays in the
    store with the [shop] field it had. *)
Theorem shop_field_is_key_and_fixed :
  (forall st, reachable st -> keyed_by_shop st) /\
  (forall req st k r, st !! k = Some r ->
     exists r', (app req st).1 !! k = Some r' /\ shop r' = shop r) /\
  (forall prev v, shop (merge prev v) = shop prev).
Proof.
  split; [|split].
  - apply reachable_invariant.
    + intros k r. by rewrite lookup_empty.
    + apply app_keyed_by_shop.
  - apply app_keeps_shop.
  - done.
Qed.

Lemma shop_field_is_key_and_fixed_witness :
  let s := "acme.myshopify.com" in
  let b := Some (JObj [ ("shop", JStr "evil.example"); ("accent", JStr "#000000") ]) in
  let st := serve [ get_settings s; post_settings s b ] ∅ in
  exists r,
    st !! s = Some r /\ shop r = s /\
    exists r', (app (post_settings s b) st).1 !! s = Some r' /\ shop r' = shop r.
Proof.
  intros s b st.
  assert (st !! s = Some (mkSettings s "Orderly" "#000000" false false false)) as Hr
    by (vm_compute; reflexivity).
  eexists. split; [exact Hr|]. split.
  - exact (proj1 shop_field_is_key_and_fixed st (ex_intro _ _ eq_refl) s _ Hr).
  - exact (proj1 (proj2 shop_field_is_key_and_fixed) (post_settings s b) st s _ Hr).
Defined.

(** C8. The default [brandName] has at most 40 elements; a request keeps
    the bound on every stored [brandName], through the handlers and
    through the whole stack; so the bound holds in every store the
    process can reach. The POST handler has no branch that refuses a
    [brandName]: a POST that reaches it with a non-empty string [shop] is
    answered 200 and stores a name within the bound. *)
Theorem brandName_at_most_40 :
  (forall s, String.length (brandName (defaultSettings s)) <= 40) /\
  (forall req st, brandName_bounded st -> brandName_bounded (app req st).1) /\
  (forall st, reachable st -> brandName_bounded st) /\
  (forall x st, brandName_bounded st -> brandName_bounded (server x st).1) /\
  (forall xs, brandName_bounded (receive xs ∅)) /\
  (forall x s b st,
     matched x = Some POST_api_settings ->
     shop_query x = Some (QString s) ->
     s <> "" ->
     express_json (received_body x) = Accepted b ->
     header_value_ok (contentSecurityPolicy (Some (QString s))) = true ->
     brandName_bounded st ->
     status (server x st).2 = 200 /\
     exists next,
       (server x st).1 !! s = Some next /\ String.length (brandName next) <= 40).
Proof.
  assert (brandName_bounded ∅) as Hempty by (intros k r; by rewrite lookup_empty).
  split; [|split; [|split; [|split; [|split]]]].
  - intros s. simpl. lia.
  - apply app_brandName_bounded.
  - by apply reachable_invariant; [|apply app_brandName_bounded].
  - intros x st. apply server_invariant, app_brandName_bounded.
  - intros xs. by apply receive_invariant; [apply app_brandName_bounded|].
  - intros x s b st Hm Hq Hs Hb Hh Hst.
    pose proof (server_invariant brandName_bounded x st app_brandName_bounded Hst)
      as Hafter.
    rewrite (server_post x s b st) in * by done. simpl in *.
    split; [done|]. eexists. split; [apply lookup_insert_eq|].
    eapply Hafter. apply lookup_insert_eq.
Qed.

Lemma brandName_at_most_40_witness :
  let s := "acme.myshopify.com" in
  let name := "0123456789012345678901234567890123456789ABCDEFGHIJ" in
  let x := post_exchange s 66 (JObj [ ("brandName", JStr name) ]) in
  let st := receive [ x ] ∅ in
  (exists r, st !! s = Some r /\ String.length (brandName r) <= 40) /\
  status (server x st).2 = 200.
Proof.
  intros s name x st.
  assert (st !! s = Some (mkSettings s "0123456789012345678901234567890123456789"
                            "#16a34a" false false false)) as Hr
    by (vm_compute; reflexivity).
  assert (s <> "") as Hs by discriminate.
  assert (header_value_ok (contentSecurityPolicy (Some (QString s))) = true) as Hh
    by (vm_compute; reflexivity).
  pose proof (proj1 (proj2 (proj2 (proj2 (proj2 brandName_at_most_40)))) [ x ])
    as Hbound.
  split.
  - eexists. split; [exact Hr|]. exact (Hbound s _ Hr).
  - exact (proj1 (proj2 (proj2 (proj2 (proj2 (proj2 brandName_at_most_40))))
                    x s _ st eq_refl eq_refl Hs eq_refl Hh Hbound)).
Defined.

(** C9 as the specification words it, for every request. It fails for
    three kinds of request, all answered by Express' final handler with a
    policy of its own, [default-src 'none']: one that no route matches
    (404), one whose body [express.json()] refuses (413), and one whose
    shop makes [res.setHeader] throw (500). *)
Lemma allows_shopify_frames_fails :
  ~ allows_shopify_frames
      (server (mkExchange None (Some (QString "acme.myshopify.com")) NoJson) ∅).2 /\
  ~ allows_shopify_frames
      (server (post_exchange "acme.myshopify.com" 110016
                 (JObj [ ("brandName", JStr (copies (N.to_nat 110000) "a")) ])) ∅).2 /\
  ~ allows_shopify_frames (server (get_exchange shop_with_newline) ∅).2.
Proof.
  assert (forall code, ~ allows_shopify_frames (final_handler code)) as Hnone.
  { intros code (value & before & after & [[= <-]|[]] & Hvalue).
    apply (f_equal String.length) in Hvalue.
    rewrite !append_length in Hvalue. simpl in Hvalue. lia. }
  split; [|split].
  - apply (Hnone 404).
  - apply (Hnone 413).
  - apply (Hnone 500).
Qed.

(** C9, amended. For every request that [express.json()] accepts, whose
    header value [res.setHeader] takes and that a registered route
    matches, the response has the header [Content-Security-Policy]; its
    last directive is [frame-ancestors] followed by
    [https://admin.shopify.com], [https://*.myshopify.com] and then, as a
    third source, [https://<shop>] exactly when the [shop] query parameter
    is a string that ends with [.myshopify.com]; otherwise there is no
    third source. *)
Theorem csp_frame_ancestors (x : exchange) (b : option json) (r : route)
    (st : gmap string Settings) :
  express_json (received_body x) = Accepted b ->
  header_value_ok (contentSecurityPolicy (shop_query x)) = true ->
  matched x = Some r ->
  exists extra,
    headers (server x st).2 =
      [ ("Content-Security-Policy",
         "default-src 'self' https: data: blob:; script-src 'self' 'unsafe-inline' https://cdn.shopify.com https://unpkg.com; style-src 'self' 'unsafe-inline' https://cdn.shopify.com https://unpkg.com; img-src 'self' https: data: blob:; connect-src 'self' https:; frame-ancestors https://admin.shopify.com https://*.myshopify.com"
         +:+ extra) ] /\
    (extra = "" \/ exists s, extra = " https://" +:+ s) /\
    (forall s, extra = " https://" +:+ s <->
               shop_query x = Some (QString s) /\
               exists p, s = p +:+ ".myshopify.com").
Proof.
  intros Hb Hh Hr. rewrite (server_served x st b r) by done.
  rewrite app_headers. simpl. unfold contentSecurityPolicy, frameAncestors.
  destruct (shop_query x) as [[y|items|props]|];
    try (exists ""; split; [reflexivity|]; split; [by left|];
         intros s; split; [done|by intros [? _]]).
  destruct (endsWith y ".myshopify.com") eqn:Hends.
  - exists (" https://" +:+ y). split; [reflexivity|].
    split; [right; by exists y|]. intros s. split.
    + intros ->%append_inj_l. split; [done|]. by apply endsWith_spec.
    + by intros [[= ->] _].
  - exists "". split; [reflexivity|]. split; [by left|].
    intros s. split; [done|].
    intros [[= ->] Hp%endsWith_spec]. congruence.
Qed.

Lemma csp_frame_ancestors_witness :
  headers (server (get_exchange "acme.myshopify.com") ∅).2 =
    [ ("Content-Security-Policy",
       "default-src 'self' https: data: blob:; script-src 'self' 'unsafe-inline' https://cdn.shopify.com https://unpkg.com; style-src 'self' 'unsafe-inline' https://cdn.shopify.com https://unpkg.com; img-src 'self' https: data: blob:; connect-src 'self' https:; frame-ancestors https://admin.shopify.com https://*.myshopify.com https://acme.myshopify.com") ].
Proof.
  assert (header_value_ok
            (contentSecurityPolicy (Some (QString "acme.myshopify.com"))) = true) as Hh
    by (vm_compute; reflexivity).
  destruct (csp_frame_ancestors (get_exchange "acme.myshopify.com") None
              GET_api_settings ∅ eq_refl Hh eq_refl) as (extra & Hheaders & _ & Hextra).
  rewrite Hheaders. f_equal. f_equal.
  assert (extra = " https://" +:+ "acme.myshopify.com") as ->.
  { apply Hextra. split; [reflexivity|]. by exists "acme". }
  reflexivity.
Defined.

(** C10. A request whose [shop] parameter is [s] leaves the entry of
    every other key as it was; a request with no string [shop] leaves the
    whole store as it was. *)
Theorem other_shops_untouched (req : request) (st : gmap string Settings) :
  (forall s k, query_shop req = Some (QString s) -> k <> s ->
     (app req st).1 !! k = st !! k) /\
  ((forall s, query_shop req <> Some (QString s)) -> (app req st).1 = st).
Proof.
  split.
  - intros s k. apply app_lookup_ne.
  - intros Hq. apply app_store_no_shop.
    destruct (shop_param (query_shop req)) as [s|] eqn:Hs; [|done].
    apply shop_param_Some in Hs as [Hs _]. by destruct (Hq s).
Qed.

Lemma other_shops_untouched_witness :
  let req := mkRequest POST_api_settings (Some (QString "a.myshopify.com"))
               (Some (JObj [ ("brandName", JStr "Acme") ])) in
  let st : gmap string Settings :=
    {[ "b.myshopify.com" := defaultSettings "b.myshopify.com" ]} in
  "b.myshopify.com" <> "a.myshopify.com" /\
  (app req st).1 !! "b.myshopify.com" = st !! "b.myshopify.com".
Proof.
  intros req st.
  assert ("b.myshopify.com" <> "a.myshopify.com") as Hk by discriminate.
  split; [exact Hk|].
  exact (proj1 (other_shops_untouched req st) "a.myshopify.com" "b.myshopify.com"
           eq_refl Hk).
Defined.

(** ** Further properties of the handlers *)

Section Handlers.

Implicit Types (st : gmap string Settings) (req : request) (s k : string)
  (b : option json).

(** A string that fits is not cut. *)
Lemma slice_0_short (x : string) (n : nat) :
  String.length x <= n -> slice x 0 (Z.of_nat n) = x.
Proof.
  intros Hn. rewrite slice_0, Nat.min_r by done. apply substring_0_all.
Qed.

Lemma shop_param_QString s : s <> "" -> shop_param (Some (QString s)) = Some s.
Proof. intros Hs. by apply shop_param_Some. Qed.

Lemma shop_param_nonempty q s : shop_param q = Some s -> s <> "".
Proof. by intros [_ Hs]%shop_param_Some. Qed.

(** What a GET with a usable [shop] stores and sends. *)
Lemma get_settings_app s st :
  s <> "" ->
  let current := get_or_default st s in
  app (get_settings s) st =
  (<[s := current]> st,
   {| status := 200;
      headers := [ ("Content-Security-Policy",
                    contentSecurityPolicy (Some (QString s))) ];
      sent := Json (ok_settings current) |}).
Proof.
  intros Hs current.
  unfold app, get_api_settings, get_settings. simpl.
  by rewrite shop_param_QString.
Qed.

Lemma merge_idem prev v : merge (merge prev v) v = merge prev v.
Proof.
  unfold merge; simpl. f_equal.
  - by destruct (get_prop v "brandName") as [[|?|?|x|?|?]|].
  - by destruct (get_prop v "accent") as [[|?|?|x|?|?]|].
Qed.

Lemma merge_full prev prev' v name colour :
  shop prev = shop prev' ->
  get_prop v "brandName" = Some (JStr name) ->
  get_prop v "accent" = Some (JStr colour) ->
  merge prev v = merge prev' v.
Proof. intros Hshop Hname Hcolour. unfold merge. by rewrite Hshop, Hname, Hcolour. Qed.

Lemma app_status req st :
  status (app req st).2 =
  match target req, shop_param (query_shop req) with
  | GET_api_settings, None | POST_api_settings, None => 400
  | _, _ => 200
  end.
Proof.
  unfold app, get_api_settings, post_api_settings.
  by destruct (target req), (shop_param (query_shop req)).
Qed.

Lemma app_lookup_is_Some req st k :
  is_Some ((app req st).1 !! k) <-> is_Some (st !! k) \/ sets_shop req k.
Proof.
  rewrite app_store. unfold sets_shop.
  destruct (target req) eqn:Ht, (shop_param (query_shop req)) as [s|] eqn:Hs;
    try (split; [by left|intros [?|[[?|?] ?]]; done]).
  - rewrite lookup_insert_is_Some'. split.
    + intros [->|?]; [right; by split; [left|]|by left].
    + intros [?|[_ [= ->]]]; [by right|by left].
  - rewrite lookup_insert_is_Some'. split.
    + intros [->|?]; [right; by split; [right|]|by left].
    + intros [?|[_ [= ->]]]; [by right|by left].
Qed.

Lemma serve_lookup_is_Some reqs : forall st k,
  is_Some (serve reqs st !! k) <->
  is_Some (st !! k) \/ exists req, In req reqs /\ sets_shop req k.
Proof.
  induction reqs as [|req reqs IH]; intros st k; simpl.
  - split; [by left|]. by intros [?|(? & [] & _)].
  - rewrite IH, app_lookup_is_Some. split.
    + intros [[?|?]|(r & ? & ?)]; [by left|right; exists req; auto|right; exists r; auto].
    + intros [?|(r & [<-|?] & ?)]; [by left; left|by left; right|right; by exists r].
Qed.

Lemma app_size req st : size (app req st).1 <= S (size st).
Proof.
  rewrite app_store.
  destruct (target req), (shop_param (query_shop req)) as [s|]; try lia;
    rewrite map_size_insert; destruct (st !! s); simpl; lia.
Qed.

(** A reply depends on the store only through the entry of its shop. *)
Lemma app_reply_local req st st' s :
  query_shop req = Some (QString s) ->
  st !! s = st' !! s ->
  (app req st).2 = (app req st').2.
Proof.
  intros Hq Hlook. unfold app, get_api_settings, post_api_settings, get_or_default.
  destruct (shop_param (query_shop req)) as [s'|] eqn:Hp.
  - apply shop_param_Some in Hp as [Hp _]. rewrite Hq in Hp. injection Hp as <-.
    rewrite Hlook. by destruct (target req).
  - by destruct (target req).
Qed.

(** The entry a request writes depends on the store only through the
    entry of its shop. *)
Lemma app_store_local req st st' s :
  query_shop req = Some (QString s) ->
  st !! s = st' !! s ->
  (app req st).1 !! s = (app req st').1 !! s.
Proof.
  intros Hq Hlook. rewrite !app_store. unfold get_or_default.
  destruct (shop_param (query_shop req)) as [s'|] eqn:Hp.
  - apply shop_param_Some in Hp as [Hp _]. rewrite Hq in Hp. injection Hp as <-.
    destruct (target req); try done; by rewrite !lookup_insert_eq, Hlook.
  - by destruct (target req).
Qed.

End Handlers.

(** X2. When a request changes the store, it is a GET or POST on
    [/api/settings] with a non-empty string [shop], it is answered 200,
    and the entry of that shop is the only one that differs. *)
Theorem store_changed_only_by_settings_request (req : request)
    (st : gmap string Settings) :
  (app req st).1 <> st ->
  exists s,
    (target req = GET_api_settings \/ target req = POST_api_settings) /\
    query_shop req = Some (QString s) /\ s <> "" /\
    status (app req st).2 = 200 /\
    forall k, k <> s -> (app req st).1 !! k = st !! k.
Proof.
  intros Hchange. rewrite app_status. rewrite app_store in Hchange.
  destruct (shop_param (query_shop req)) as [s|] eqn:Hp.
  - destruct (proj1 (shop_param_Some _ _) Hp) as [Hq Hs]. exists s.
    destruct (target req) eqn:Ht; try done;
      (split; [auto|]; split; [done|]; split; [done|]; split; [done|];
       intros k Hk; by apply (app_lookup_ne req st s k)).
  - by destruct (target req).
Qed.

Lemma store_changed_only_by_settings_request_witness :
  let req := get_settings "acme.myshopify.com" in
  exists s,
    query_shop req = Some (QString s) /\ s <> "" /\
    status (app req ∅).2 = 200.
Proof.
  intros req.
  assert ((app req ∅).1 <> ∅) as Hchange.
  { intros Heq. apply (f_equal (fun m => m !! "acme.myshopify.com")) in Heq.
    vm_compute in Heq. discriminate Heq. }
  destruct (store_changed_only_by_settings_request req ∅ Hchange)
    as (s & _ & Hq & Hs & Hst & _).
  exists s. split; [exact Hq|]. split; [exact Hs|exact Hst].
Defined.

(** X3. A GET for a shop that already has a record leaves the store
    exactly as it was and sends that record. *)
Theorem fetch_known_shop_read_only (s : string) (r : Settings) (b : option json)
    (st : gmap string Settings) :
  s <> "" ->
  st !! s = Some r ->
  let req := mkRequest GET_api_settings (Some (QString s)) b in
  (app req st).1 = st /\
  status (app req st).2 = 200 /\
  sent (app req st).2 = Json (ok_settings r).
Proof.
  intros Hs Hr req. unfold app, get_api_settings. simpl.
  rewrite shop_param_QString by done. unfold get_or_default. rewrite Hr. simpl.
  split; [by apply insert_id|done].
Qed.

Lemma fetch_known_shop_read_only_witness :
  let s := "acme.myshopify.com" in
  let r := mkSettings s "Acme Co" "#ff0000" false true true in
  let st : gmap string Settings := {[ s := r ]} in
  s <> "" /\ st !! s = Some r /\
  (app (mkRequest GET_api_settings (Some (QString s)) None) st).1 = st.
Proof.
  intros s r st.
  assert (s <> "") as Hs by discriminate.
  assert (st !! s = Some r) as Hr by (vm_compute; reflexivity).
  split; [exact Hs|]. split; [exact Hr|].
  exact (proj1 (fetch_known_shop_read_only s r None st Hs Hr)).
Defined.

(** X4. A GET that follows a POST for the same shop sends the record the
    POST sent, and leaves the store as the POST left it; the POST being
    one that [express.json()] accepts, for a non-empty string [shop] whose
    header value [res.setHeader] takes. *)
Theorem fetch_after_update (x : exchange) (s : string) (b : option json)
    (st : gmap string Settings) :
  matched x = Some POST_api_settings ->
  shop_query x = Some (QString s) ->
  s <> "" ->
  express_json (received_body x) = Accepted b ->
  header_value_ok (contentSecurityPolicy (Some (QString s))) = true ->
  let posted := server x st in
  let fetched := server (get_exchange s) posted.1 in
  sent fetched.2 = sent posted.2 /\
  status posted.2 = 200 /\
  status fetched.2 = 200 /\
  fetched.1 = posted.1.
Proof.
  intros Hm Hq Hs Hb Hh. cbv zeta.
  rewrite (server_post x s b st) by done. cbn [fst snd sent status].
  rewrite (server_get (get_exchange s) s None) by done. cbn [fst snd sent status].
  rewrite get_or_default_insert. do 3 (split; [done|]).
  apply insert_insert_eq.
Qed.

Lemma fetch_after_update_witness :
  let s := "acme.myshopify.com" in
  let x := post_exchange s 42
             (JObj [ ("brandName", JStr "Acme Co"); ("notifyDelay", JBool true) ]) in
  sent (server (get_exchange s) (server x ∅).1).2 = sent (server x ∅).2 /\
  status (server x ∅).2 = 200.
Proof.
  intros s x.
  assert (s <> "") as Hs by discriminate.
  assert (header_value_ok (contentSecurityPolicy (Some (QString s))) = true) as Hh
    by (vm_compute; reflexivity).
  destruct (fetch_after_update x s _ ∅ eq_refl eq_refl Hs eq_refl Hh)
    as (Hsent & Hposted & _).
  split; [exact Hsent|exact Hposted].
Defined.

(** X5. Sending the same POST a second time changes nothing: the reply
    and the store are those of the first. *)
Theorem update_idempotent (s : string) (b : option json)
    (st : gmap string Settings) :
  s <> "" ->
  app (post_settings s b) (app (post_settings s b) st).1 =
  app (post_settings s b) st.
Proof.
  intros Hs. rewrite (post_settings_app s b st) by done. simpl.
  rewrite post_settings_app by done. simpl.
  rewrite get_or_default_insert, merge_idem. f_equal. apply insert_insert_eq.
Qed.

Lemma update_idempotent_witness :
  let s := "acme.myshopify.com" in
  let b := Some (JObj [ ("brandName", JStr "Acme Co"); ("notifyDelay", JNum S754_nan) ]) in
  s <> "" /\
  app (post_settings s b) (app (post_settings s b) ∅).1 = app (post_settings s b) ∅.
Proof.
  intros s b.
  assert (s <> "") as Hs by discriminate.
  split; [exact Hs|].
  exact (update_idempotent s b ∅ Hs).
Defined.

(** X6. The last write wins: a POST whose body has a string [brandName]
    and a string [accent] gives the reply and the store it would have
    given had the POST before it, for the same shop, never happened. *)
Theorem full_update_overrides (s name colour : string) (b1 b2 : option json)
    (st : gmap string Settings) :
  s <> "" ->
  get_prop (body_of b2) "brandName" = Some (JStr name) ->
  get_prop (body_of b2) "accent" = Some (JStr colour) ->
  app (post_settings s b2) (app (post_settings s b1) st).1 =
  app (post_settings s b2) st.
Proof.
  intros Hs Hname Hcolour. rewrite (post_settings_app s b1 st) by done. simpl.
  rewrite !post_settings_app by done. simpl.
  rewrite get_or_default_insert.
  rewrite (merge_full (merge (get_or_default st s) (body_of b1))
             (get_or_default st s) (body_of b2) name colour) by done.
  f_equal. apply insert_insert_eq.
Qed.

Lemma full_update_overrides_witness :
  let s := "acme.myshopify.com" in
  let b1 := Some (JObj [ ("brandName", JStr "First"); ("notifyDelay", JBool true) ]) in
  let b2 := Some (JObj [ ("brandName", JStr "Second"); ("accent", JStr "#000000") ]) in
  s <> "" /\
  app (post_settings s b2) (app (post_settings s b1) ∅).1 = app (post_settings s b2) ∅.
Proof.
  intros s b1 b2.
  assert (s <> "") as Hs by discriminate.
  split; [exact Hs|].
  exact (full_update_overrides s "Second" "#000000" b1 b2 ∅ Hs eq_refl eq_refl).
Defined.

(** X7. In a POST that is served (accepted by [express.json()], so of at
    most 100kb, for a non-empty string [shop] whose header value
    [res.setHeader] takes), a string [brandName] of at most 40 elements is
    stored as it is, the empty string included (it does not fall back to
    the previous name), and a string [accent] is stored as it is whatever
    its content. *)
Theorem string_fields_stored_verbatim (x : exchange) (s : string) (b : option json)
    (st : gmap string Settings) :
  matched x = Some POST_api_settings ->
  shop_query x = Some (QString s) ->
  s <> "" ->
  express_json (received_body x) = Accepted b ->
  header_value_ok (contentSecurityPolicy (Some (QString s))) = true ->
  exists next,
    (server x st).1 !! s = Some next /\
    (forall name, get_prop (body_of b) "brandName" = Some (JStr name) ->
       String.length name <= 40 -> brandName next = name) /\
    (forall colour, get_prop (body_of b) "accent" = Some (JStr colour) ->
       accent next = colour).
Proof.
  intros Hm Hq Hs Hb Hh. rewrite (server_post x s b st) by done. simpl.
  eexists. split; [apply lookup_insert_eq|]. simpl. split.
  - intros name -> Hlen. change 40%Z with (Z.of_nat 40). by apply slice_0_short.
  - by intros colour ->.
Qed.

Lemma string_fields_stored_verbatim_witness :
  let s := "acme.myshopify.com" in
  let v := JObj [ ("brandName", JStr ""); ("accent", JStr "not a colour") ] in
  let st : gmap string Settings :=
    {[ s := mkSettings s "Acme Co" "#ff0000" true true true ]} in
  exists next,
    (server (post_exchange s 40 v) st).1 !! s = Some next /\
    brandName next = "" /\ accent next = "not a colour".
Proof.
  intros s v st.
  assert (s <> "") as Hs by discriminate.
  assert (header_value_ok (contentSecurityPolicy (Some (QString s))) = true) as Hh
    by (vm_compute; reflexivity).
  destruct (string_fields_stored_verbatim (post_exchange s 40 v) s (Some v) st
              eq_refl eq_refl Hs eq_refl Hh) as (next & Hnext & Hname & Hcolour).
  exists next. split; [exact Hnext|]. split.
  - apply Hname; [reflexivity|simpl; lia].
  - apply Hcolour. reflexivity.
Defined.

(** X8. No reachable store has an entry under the empty string: keys are
    exactly the non-empty [shop] strings that passed the guard. *)
Theorem stored_keys_nonempty (st : gmap string Settings) (k : string) :
  reachable st -> is_Some (st !! k) -> k <> "".
Proof.
  intros [reqs ->] [Hk|(req & _ & _ & Hp)]%serve_lookup_is_Some.
  - rewrite lookup_empty in Hk. by destruct Hk.
  - by apply shop_param_nonempty in Hp.
Qed.

Lemma stored_keys_nonempty_witness :
  let st := serve [ get_settings ""; get_settings "acme.myshopify.com" ] ∅ in
  reachable st /\ is_Some (st !! "acme.myshopify.com") /\ "acme.myshopify.com" <> "".
Proof.
  intros st.
  assert (reachable st) as Hreach by (eexists; reflexivity).
  assert (is_Some (st !! "acme.myshopify.com")) as Hk
    by (eexists; vm_compute; reflexivity).
  split; [exact Hreach|]. split; [exact Hk|].
  exact (stored_keys_nonempty st "acme.myshopify.com" Hreach Hk).
Defined.

(** X9. After any sequence of requests a shop has a record exactly when
    it had one before or one of the requests was a GET or POST on
    [/api/settings] with that shop as a non-empty string, accepted by
    [express.json()] and with a header value [res.setHeader] takes:
    entries are created lazily, one per shop served, and never deleted. *)
Theorem record_exists_iff_requested (xs : list exchange)
    (st : gmap string Settings) (k : string) :
  is_Some (receive xs st !! k) <->
  is_Some (st !! k) \/
  exists x, In x xs /\
    (matched x = Some GET_api_settings \/ matched x = Some POST_api_settings) /\
    shop_query x = Some (QString k) /\ k <> "" /\
    (exists b, express_json (received_body x) = Accepted b) /\
    header_value_ok (contentSecurityPolicy (Some (QString k))) = true.
Proof. apply receive_lookup_is_Some. Qed.

Lemma record_exists_iff_requested_witness :
  let xs := [ get_exchange shop_with_newline;
              post_exchange "acme.myshopify.com" 2 (JObj []) ] in
  is_Some (receive xs ∅ !! "acme.myshopify.com") /\
  ~ is_Some (receive xs ∅ !! shop_with_newline).
Proof.
  intros xs. split.
  - apply (proj2 (record_exists_iff_requested xs ∅ "acme.myshopify.com")).
    right. exists (post_exchange "acme.myshopify.com" 2 (JObj [])).
    split; [right; left; reflexivity|].
    split; [right; reflexivity|]. split; [reflexivity|].
    split; [discriminate|]. split; [by eexists|]. vm_compute. reflexivity.
  - intros Hsome.
    apply (proj1 (record_exists_iff_requested xs ∅ shop_with_newline)) in Hsome.
    destruct Hsome as [Hempty|(x & _ & _ & _ & _ & _ & Hh)].
    + rewrite lookup_empty in Hempty. by destruct Hempty.
    + vm_compute in Hh. discriminate Hh.
Defined.

(** X10. A request adds at most one entry: after [n] requests the store
    has at most [n] entries more than before. *)
Theorem store_size_bounded (reqs : list request) (st : gmap string Settings) :
  size (serve reqs st) <= size st + length reqs.
Proof.
  revert st. induction reqs as [|req reqs IH]; intros st; simpl; [lia|].
  specialize (IH (app req st).1). pose proof (app_size req st). lia.
Qed.

(** ** The page script against the server *)

Section PageScript.

Import Page.

Implicit Types (st : gmap string Settings) (s : string) (r : Settings) (f : form).

(** The writes of [setMetricsFromSettings] for a record sent by the server. *)
Lemma setMetrics_of_record r :
  setMetricsFromSettings (settings_json r) =
  [ SetTextNumber "mEnabled"
      (ticked (notifyDelay r) (notifyOutForDelivery r) (notifyDelivered r));
    SetText "mOrders" "—";
    SetText "mUpdates" "—" ].
Proof. by destruct r as [? ? ? [] [] []]. Qed.

Lemma loaded_of_record r :
  loaded (Some (ok_settings r)) =
  [ SetValue "brandName"
      (JStr (if String.eqb (brandName r) "" then "Orderly" else brandName r));
    SetValue "accent"
      (JStr (if String.eqb (accent r) "" then "#16a34a" else accent r));
    SetChecked "notifyDelay" (notifyDelay r);
    SetChecked "notifyOutForDelivery" (notifyOutForDelivery r);
    SetChecked "notifyDelivered" (notifyDelivered r);
    SetTextNumber "mEnabled"
      (ticked (notifyDelay r) (notifyOutForDelivery r) (notifyDelivered r));
    SetText "mOrders" "—";
    SetText "mUpdates" "—";
    SetText "msg" "Loaded." ].
Proof.
  change (loaded (Some (ok_settings r))) with
    ([ SetValue "brandName" (or_else (Some (JStr (brandName r))) (JStr "Orderly"));
       SetValue "accent" (or_else (Some (JStr (accent r))) (JStr "#16a34a"));
       SetChecked "notifyDelay" (notifyDelay r);
       SetChecked "notifyOutForDelivery" (notifyOutForDelivery r);
       SetChecked "notifyDelivered" (notifyDelivered r) ]
     ++ setMetricsFromSettings (settings_json r)
     ++ [ SetText "msg" "Loaded." ])%list.
  rewrite setMetrics_of_record. simpl.
  by destruct (String.eqb (brandName r) ""), (String.eqb (accent r) "").
Qed.

Lemma saved_of_record r :
  saved (Some (ok_settings r)) =
  [ SetTextNumber "mEnabled"
      (ticked (notifyDelay r) (notifyOutForDelivery r) (notifyDelivered r));
    SetText "mOrders" "—";
    SetText "mUpdates" "—";
    SetText "msg" "✅ Saved." ].
Proof.
  change (saved (Some (ok_settings r))) with
    (setMetricsFromSettings (settings_json r) ++ [ SetText "msg" "✅ Saved." ])%list.
  by rewrite setMetrics_of_record.
Qed.

(** The body of a save is never empty. *)
Lemma payload_bytes_pos f : (86 <= payload_bytes f)%N.
Proof.
  unfold payload_bytes, bool_bytes.
  change (N.of_nat (String.length "brandName")) with 9%N.
  change (N.of_nat (String.length "accent")) with 6%N.
  change (N.of_nat (String.length "notifyDelay")) with 11%N.
  change (N.of_nat (String.length "notifyOutForDelivery")) with 20%N.
  change (N.of_nat (String.length "notifyDelivered")) with 15%N.
  destruct (in_notifyDelay f), (in_notifyOutForDelivery f), (in_notifyDelivered f);
    lia.
Qed.

(** What [express.json()] makes of the body of a save. *)
Lemma express_json_payload f :
  express_json (JsonBody (payload_bytes f) (Some (save_payload f))) =
  if (body_limit <? payload_bytes f)%N then Refused 413
  else Accepted (Some (save_payload f)).
Proof.
  unfold express_json. destruct (body_limit <? payload_bytes f)%N; [done|].
  pose proof (payload_bytes_pos f).
  by destruct (N.eqb_spec (payload_bytes f) 0) as [?|_]; [lia|].
Qed.

(** A whole run of [loadSettings] that the server serves. *)
Lemma loadSettings_served s st :
  s <> "" ->
  header_value_ok (contentSecurityPolicy (Some (QString s))) = true ->
  loadSettings s st =
  (<[s := get_or_default st s]> st,
   SetText "msg" "Loading..." :: loaded (Some (ok_settings (get_or_default st s)))).
Proof.
  intros Hs Hh. unfold loadSettings, fetch_json.
  destruct (String.eqb_spec s "") as [->|_]; [done|].
  by rewrite (server_get (get_exchange s) s None).
Qed.

(** A run of [loadSettings] whose request ends in [res.setHeader]. *)
Lemma loadSettings_refused s st :
  s <> "" ->
  header_value_ok (contentSecurityPolicy (Some (QString s))) = false ->
  loadSettings s st = (st, [ SetText "msg" "Loading..." ]).
Proof.
  intros Hs Hh. unfold loadSettings, fetch_json, server.
  destruct (String.eqb_spec s "") as [->|_]; [done|].
  cbn [get_exchange received_body shop_query express_json]. by rewrite Hh.
Qed.

(** A whole run of [saveSettings] that the server serves. *)
Lemma saveSettings_served s f st :
  s <> "" ->
  header_value_ok (contentSecurityPolicy (Some (QString s))) = true ->
  (payload_bytes f <= body_limit)%N ->
  let next := merge (get_or_default st s) (save_payload f) in
  saveSettings s f st =
  (<[s := next]> st, SetText "msg" "Saving..." :: saved (Some (ok_settings next))).
Proof.
  intros Hs Hh Hsize next. unfold saveSettings, fetch_json.
  destruct (String.eqb_spec s "") as [->|_]; [done|].
  rewrite (server_post _ s (Some (save_payload f))); try done.
  unfold post_exchange. cbn [received_body]. rewrite express_json_payload.
  by destruct (N.ltb_spec body_limit (payload_bytes f)); [lia|].
Qed.

(** A run of [saveSettings] whose request the server does not serve. *)
Lemma saveSettings_refused s f st :
  s <> "" ->
  (body_limit < payload_bytes f)%N \/
  header_value_ok (contentSecurityPolicy (Some (QString s))) = false ->
  saveSettings s f st = (st, [ SetText "msg" "Saving..." ]).
Proof.
  intros Hs Hwhy. unfold saveSettings, fetch_json, server.
  destruct (String.eqb_spec s "") as [->|_]; [done|].
  unfold post_exchange. cbn [received_body shop_query matched].
  rewrite express_json_payload.
  destruct (N.ltb_spec body_limit (payload_bytes f)) as [?|Hfits]; [done|].
  destruct Hwhy as [?|Hh]; [lia|]. by rewrite Hh.
Qed.

End PageScript.

(** X11. [saveSettings] on a page with a shop, when the server serves
    the request (a shop whose header value [res.setHeader] takes, a body
    of at most 100kb): the server stores, for that shop, the form's brand
    name cut at 40 elements, the form's accent and the three boxes as they
    are ticked; the page then shows the number of ticked boxes and ends on
    the message of success. *)
Theorem page_save_stores_form (s : string) (f : Page.form)
    (st : gmap string Settings) :
  s <> "" ->
  header_value_ok (contentSecurityPolicy (Some (QString s))) = true ->
  (Page.payload_bytes f <= body_limit)%N ->
  Page.saveSettings s f st =
  (<[s := {| shop := shop (get_or_default st s);
             brandName := slice (Page.in_brandName f) 0 40;
             accent := Page.in_accent f;
             notifyDelay := Page.in_notifyDelay f;
             notifyOutForDelivery := Page.in_notifyOutForDelivery f;
             notifyDelivered := Page.in_notifyDelivered f |}]> st,
   [ Page.SetText "msg" "Saving...";
     Page.SetTextNumber "mEnabled"
       (Page.ticked (Page.in_notifyDelay f) (Page.in_notifyOutForDelivery f)
          (Page.in_notifyDelivered f));
     Page.SetText "mOrders" "—";
     Page.SetText "mUpdates" "—";
     Page.SetText "msg" "✅ Saved." ]).
Proof.
  intros Hs Hh Hsize. rewrite saveSettings_served by done.
  by rewrite saved_of_record.
Qed.

Lemma page_save_stores_form_witness :
  let s := "acme.myshopify.com" in
  let f := Page.mkForm "Acme Co" "#ff0000" false true true in
  (Page.payload_bytes f <= body_limit)%N /\
  (Page.saveSettings s f ∅).1 !! s =
    Some (mkSettings s "Acme Co" "#ff0000" false true true).
Proof.
  intros s f.
  assert (s <> "") as Hs by discriminate.
  assert (header_value_ok (contentSecurityPolicy (Some (QString s))) = true) as Hh
    by (vm_compute; reflexivity).
  assert (Page.payload_bytes f <= body_limit)%N as Hsize
    by (vm_compute; discriminate).
  split; [exact Hsize|].
  rewrite (page_save_stores_form s f ∅ Hs Hh Hsize). vm_compute. reflexivity.
Defined.

(** X12. [loadSettings] on a page with a shop whose header value
    [res.setHeader] takes: the form is filled from the record the server
    holds for the shop (the default record for a shop it has not seen,
    which it then stores), an empty brand name or accent is shown as the
    default one, the metric is the number of flags that are on, and the
    run ends on [Loaded.]. *)
Theorem page_load_shows_record (s : string) (st : gmap string Settings) :
  s <> "" ->
  header_value_ok (contentSecurityPolicy (Some (QString s))) = true ->
  let r := get_or_default st s in
  Page.loadSettings s st =
  (<[s := r]> st,
   [ Page.SetText "msg" "Loading...";
     Page.SetValue "brandName"
       (JStr (if String.eqb (brandName r) "" then "Orderly" else brandName r));
     Page.SetValue "accent"
       (JStr (if String.eqb (accent r) "" then "#16a34a" else accent r));
     Page.SetChecked "notifyDelay" (notifyDelay r);
     Page.SetChecked "notifyOutForDelivery" (notifyOutForDelivery r);
     Page.SetChecked "notifyDelivered" (notifyDelivered r);
     Page.SetTextNumber "mEnabled"
       (Page.ticked (notifyDelay r) (notifyOutForDelivery r) (notifyDelivered r));
     Page.SetText "mOrders" "—";
     Page.SetText "mUpdates" "—";
     Page.SetText "msg" "Loaded." ]).
Proof.
  intros Hs Hh r. rewrite loadSettings_served by done. subst r.
  by rewrite loaded_of_record.
Qed.

Lemma page_load_shows_record_witness :
  let s := "acme.myshopify.com" in
  Page.loadSettings s ∅ =
  ({[ s := defaultSettings s ]},
   [ Page.SetText "msg" "Loading...";
     Page.SetValue "brandName" (JStr "Orderly");
     Page.SetValue "accent" (JStr "#16a34a");
     Page.SetChecked "notifyDelay" true;
     Page.SetChecked "notifyOutForDelivery" true;
     Page.SetChecked "notifyDelivered" true;
     Page.SetTextNumber "mEnabled" 3;
     Page.SetText "mOrders" "—";
     Page.SetText "mUpdates" "—";
     Page.SetText "msg" "Loaded." ]).
Proof.
  intros s.
  assert (s <> "") as Hs by discriminate.
  assert (header_value_ok (contentSecurityPolicy (Some (QString s))) = true) as Hh
    by (vm_compute; reflexivity).
  exact (page_load_shows_record s ∅ Hs Hh).
Defined.

(** X13. Save then reload, both served: when the brand name of the form
    is not empty and has at most 40 elements, the accent is not empty, the
    body is of at most 100kb and [res.setHeader] takes the header value of
    the shop, a [loadSettings] after a [saveSettings] writes back exactly
    the values the form had, and leaves the store as the save left it. *)
Theorem page_reload_after_save (s : string) (f : Page.form)
    (st : gmap string Settings) :
  s <> "" ->
  header_value_ok (contentSecurityPolicy (Some (QString s))) = true ->
  (Page.payload_bytes f <= body_limit)%N ->
  Page.in_brandName f <> "" ->
  String.length (Page.in_brandName f) <= 40 ->
  Page.in_accent f <> "" ->
  let after_save := (Page.saveSettings s f st).1 in
  Page.loadSettings s after_save =
  (after_save,
   [ Page.SetText "msg" "Loading...";
     Page.SetValue "brandName" (JStr (Page.in_brandName f));
     Page.SetValue "accent" (JStr (Page.in_accent f));
     Page.SetChecked "notifyDelay" (Page.in_notifyDelay f);
     Page.SetChecked "notifyOutForDelivery" (Page.in_notifyOutForDelivery f);
     Page.SetChecked "notifyDelivered" (Page.in_notifyDelivered f);
     Page.SetTextNumber "mEnabled"
       (Page.ticked (Page.in_notifyDelay f) (Page.in_notifyOutForDelivery f)
          (Page.in_notifyDelivered f));
     Page.SetText "mOrders" "—";
     Page.SetText "mUpdates" "—";
     Page.SetText "msg" "Loaded." ]).
Proof.
  intros Hs Hh Hsize Hname Hlen Hcolour after_save. subst after_save.
  rewrite saveSettings_served by done. cbn [fst].
  rewrite loadSettings_served by done.
  rewrite get_or_default_insert, loaded_of_record. simpl.
  change 40%Z with (Z.of_nat 40). rewrite slice_0_short by done.
  destruct (String.eqb_spec (Page.in_brandName f) "") as [?|_]; [done|].
  destruct (String.eqb_spec (Page.in_accent f) "") as [?|_]; [done|].
  f_equal. apply insert_insert_eq.
Qed.

Lemma page_reload_after_save_witness :
  let s := "acme.myshopify.com" in
  let f := Page.mkForm "Acme Co" "#ff0000" false true false in
  let after_save := (Page.saveSettings s f ∅).1 in
  (Page.loadSettings s after_save).1 = after_save.
Proof.
  intros s f after_save.
  assert (s <> "") as Hs by discriminate.
  assert (header_value_ok (contentSecurityPolicy (Some (QString s))) = true) as Hh
    by (vm_compute; reflexivity).
  assert (Page.payload_bytes f <= body_limit)%N as Hsize
    by (vm_compute; discriminate).
  assert (Page.in_brandName f <> "") as Hname by discriminate.
  assert (String.length (Page.in_brandName f) <= 40) as Hlen by (simpl; lia).
  assert (Page.in_accent f <> "") as Hcolour by discriminate.
  exact (f_equal fst (page_reload_after_save s f ∅ Hs Hh Hsize Hname Hlen Hcolour)).
Defined.

(** X14. No run of [loadSettings], [saveSettings] or of the whole script
    writes the [Error: ...] or [Save failed: ...] message, whatever the
    shop, the form and the store: without a shop no request is sent (the
    store stays as it is); with a shop the request is either served with
    [ok: true] or answered with the page of the final handler, on which
    [r.json()] rejects before any message is written. *)
Theorem page_never_shows_failure (s : string) (param : option string)
    (f : Page.form) (st : gmap string Settings) :
  Forall (fun w => ~ Page.shows_failure w) (Page.loadSettings s st).2 /\
  Forall (fun w => ~ Page.shows_failure w) (Page.saveSettings s f st).2 /\
  Forall (fun w => ~ Page.shows_failure w) (Page.script param st).2 /\
  (Page.loadSettings "" st).1 = st /\
  (Page.saveSettings "" f st).1 = st /\
  (Page.script None st).1 = st.
Proof.
  assert (forall y, Forall (fun w => ~ Page.shows_failure w) (Page.loadSettings y st).2)
    as Hload.
  { intros y. destruct (decide (y = "")) as [->|Hy].
    - simpl. repeat constructor; by intros [].
    - destruct (header_value_ok (contentSecurityPolicy (Some (QString y)))) eqn:Hh.
      + rewrite loadSettings_served, loaded_of_record by done. simpl.
        repeat constructor; by intros [].
      + rewrite loadSettings_refused by done. simpl.
        repeat constructor; by intros []. }
  split; [apply Hload|]. split; [|split; [|done]].
  - destruct (decide (s = "")) as [->|Hs].
    + simpl. repeat constructor; by intros [].
    + destruct (header_value_ok (contentSecurityPolicy (Some (QString s)))) eqn:Hh;
        [destruct (N.ltb_spec body_limit (Page.payload_bytes f)) as [Hbig|Hfits]|].
      * rewrite saveSettings_refused by auto. simpl.
        repeat constructor; by intros [].
      * rewrite saveSettings_served, saved_of_record by done. simpl.
        repeat constructor; by intros [].
      * rewrite saveSettings_refused by auto. simpl.
        repeat constructor; by intros [].
  - unfold Page.script. specialize (Hload (Page.page_shop param)).
    destruct (Page.loadSettings (Page.page_shop param) st) as [st' ws]. simpl in *.
    constructor; [by intros []|done].
Qed.

(** X17. A save the server does not serve fails in silence: when the
    body is over 100kb, or when [res.setHeader] throws on the shop, the
    reply is not JSON, [saveSettings] stops after [Saving...], nothing is
    stored and no message of failure is written; [loadSettings] likewise
    stops after [Loading...] for such a shop. *)
Theorem page_request_refused (s : string) (f : Page.form)
    (st : gmap string Settings) :
  s <> "" ->
  ((body_limit < Page.payload_bytes f)%N \/
   header_value_ok (contentSecurityPolicy (Some (QString s))) = false ->
   Page.saveSettings s f st = (st, [ Page.SetText "msg" "Saving..." ])) /\
  (header_value_ok (contentSecurityPolicy (Some (QString s))) = false ->
   Page.loadSettings s st = (st, [ Page.SetText "msg" "Loading..." ])).
Proof.
  intros Hs. split.
  - by apply saveSettings_refused.
  - by apply loadSettings_refused.
Qed.

Lemma page_request_refused_witness :
  let f := Page.mkForm (copies (N.to_nat 110000) "a") "#ff0000" true true true in
  (body_limit < Page.payload_bytes f)%N /\
  Page.saveSettings "acme.myshopify.com" f ∅ = (∅, [ Page.SetText "msg" "Saving..." ]) /\
  Page.loadSettings shop_with_newline ∅ = (∅, [ Page.SetText "msg" "Loading..." ]).
Proof.
  intros f.
  assert (body_limit < Page.payload_bytes f)%N as Hbig by (vm_compute; reflexivity).
  split; [exact Hbig|]. split.
  - apply (proj1 (page_request_refused "acme.myshopify.com" f ∅ ltac:(discriminate))).
    left. exact Hbig.
  - apply (proj2 (page_request_refused shop_with_newline f ∅ ltac:(discriminate))).
    vm_compute. reflexivity.
Defined.

(** X15. Requests for different shops are independent: served in either
    order they leave the same store, and each gets the reply it would
    have got had the other not been served. *)
Theorem different_shops_commute (req1 req2 : request) (s1 s2 : string)
    (st : gmap string Settings) :
  query_shop req1 = Some (QString s1) ->
  query_shop req2 = Some (QString s2) ->
  s1 <> s2 ->
  (app req2 (app req1 st).1).1 = (app req1 (app req2 st).1).1 /\
  (app req2 (app req1 st).1).2 = (app req2 st).2 /\
  (app req1 (app req2 st).1).2 = (app req1 st).2.
Proof.
  intros Hq1 Hq2 Hne.
  assert ((app req1 st).1 !! s2 = st !! s2) as H12 by (by apply (app_lookup_ne req1 st s1)).
  assert ((app req2 st).1 !! s1 = st !! s1) as H21 by (by apply (app_lookup_ne req2 st s2)).
  split; [|split].
  - apply map_eq. intros k.
    destruct (decide (k = s2)) as [->|Hk2].
    + rewrite (app_store_local req2 _ st s2) by done.
      symmetry. by apply (app_lookup_ne req1 _ s1).
    + rewrite (app_lookup_ne req2 _ s2 k) by done.
      destruct (decide (k = s1)) as [->|Hk1].
      * by rewrite (app_store_local req1 (app req2 st).1 st s1).
      * rewrite !(app_lookup_ne req1 _ s1 k) by done.
        by rewrite (app_lookup_ne req2 _ s2 k).
  - by apply (app_reply_local req2 _ _ s2).
  - by apply (app_reply_local req1 _ _ s1).
Qed.

Lemma different_shops_commute_witness :
  let req1 := post_settings "a.myshopify.com" (Some (JObj [ ("brandName", JStr "A") ])) in
  let req2 := get_settings "b.myshopify.com" in
  "a.myshopify.com" <> "b.myshopify.com" /\
  (app req2 (app req1 ∅).1).1 = (app req1 (app req2 ∅).1).1.
Proof.
  intros req1 req2.
  assert ("a.myshopify.com" <> "b.myshopify.com") as Hne by discriminate.
  split; [exact Hne|].
  exact (proj1 (different_shops_commute req1 req2 _ _ ∅ eq_refl eq_refl Hne)).
Defined.

(** X16. In a store the process can reach, a GET or POST on
    [/api/settings] that is served (accepted by [express.json()], for a
    non-empty string [shop] whose header value [res.setHeader] takes)
    replies [{ok: true, settings: r}] where [r] is the record now stored
    for that shop and the [shop] field of [r] is the shop of the request. *)
Theorem reply_is_stored_record (x : exchange) (s : string) (b : option json)
    (st : gmap string Settings) :
  reachable st ->
  matched x = Some GET_api_settings \/ matched x = Some POST_api_settings ->
  shop_query x = Some (QString s) ->
  s <> "" ->
  express_json (received_body x) = Accepted b ->
  header_value_ok (contentSecurityPolicy (Some (QString s))) = true ->
  exists r,
    sent (server x st).2 = Json (ok_settings r) /\
    (server x st).1 !! s = Some r /\
    shop r = s.
Proof.
  intros Hreach Hm Hq Hs Hb Hh.
  assert (keyed_by_shop st) as Hkeyed.
  { revert st Hreach. apply reachable_invariant.
    - intros k r. by rewrite lookup_empty.
    - apply app_keyed_by_shop. }
  assert (keyed_by_shop (server x st).1) as Hafter
    by (by apply server_invariant; [apply app_keyed_by_shop|]).
  assert (exists r, sent (server x st).2 = Json (ok_settings r) /\
                      (server x st).1 !! s = Some r) as (r & Hsent & Hr).
  { destruct Hm as [Hm|Hm].
    - rewrite (server_get x s b st) by done. simpl.
      eexists. split; [done|apply lookup_insert_eq].
    - rewrite (server_post x s b st) by done. simpl.
      eexists. split; [done|apply lookup_insert_eq]. }
  exists r. split; [done|]. split; [done|]. by apply Hafter.
Qed.

Lemma reply_is_stored_record_witness :
  let s := "acme.myshopify.com" in
  let st := serve [ get_settings s ] ∅ in
  let x := post_exchange s 24 (JObj [ ("shop", JStr "other.example") ]) in
  exists r, (server x st).1 !! s = Some r /\ shop r = s.
Proof.
  intros s st x.
  assert (reachable st) as Hreach by (eexists; reflexivity).
  assert (s <> "") as Hs by discriminate.
  assert (header_value_ok (contentSecurityPolicy (Some (QString s))) = true) as Hh
    by (vm_compute; reflexivity).
  destruct (reply_is_stored_record x s _ st Hreach (or_intror eq_refl) eq_refl Hs
              eq_refl Hh) as (r & _ & Hr & Hshop).
  exists r. split; [exact Hr|exact Hshop].
Defined.
